(** * Cloudflare Logpush receiver: a shallow embedding of [log-receiver/app.py]

    The receiver is one Flask application: [receive_logs] authenticates a
    request, decodes its body (gzip or plain UTF-8), answers the validation
    probe, parses newline-delimited JSON and hands the batch to
    [push_to_loki], which builds one Loki stream and posts it.

    Python values are modelled as data ([str] is a sequence of code points,
    [bytes] a list of bytes, JSON values an inductive type, [float] the
    binary64 numbers of [SpecFloat]).  Effects -- log records, clock reads,
    the outbound HTTP call, exceptions -- are threaded through a small
    state-and-exception monad.  What the code gets from libraries it does
    not contain (inflation of gzip members, [json.loads], [json.dumps],
    [datetime.fromisoformat], the host's local time zone) is a [PyLib]
    argument; what it gets from the outside world (the clock, the Loki
    backend) is a [World] argument. *)

From Stdlib Require Import ZArith NArith List Bool Lia.
From Stdlib.Strings Require Import String Ascii Byte.
From Stdlib Require Import SpecFloat.
Import ListNotations.

Local Open Scope list_scope.
Local Open Scope Z_scope.

(* ===================================================================== *)
(** ** Python [str]: sequences of Unicode code points                     *)
(* ===================================================================== *)

Definition str := list N.

(** A literal of the source, written in ASCII. *)
Definition lit (s : string) : str := map N_of_ascii (list_ascii_of_string s).

(** The double quote, which a literal cannot spell. *)
Definition DQUOTE : N := 34%N.

(** ["s"] with its quotes, as in the JSON texts of the source. *)
Definition quoted (s : string) : str := DQUOTE :: lit s ++ [DQUOTE].

Fixpoint str_eqb (a b : str) : bool :=
  match a, b with
  | [], [] => true
  | x :: a', y :: b' => N.eqb x y && str_eqb a' b'
  | _, _ => false
  end.

(** [str.isspace] on one code point: what [str.strip()] removes. *)
Definition is_space (c : N) : bool :=
  ((9 <=? c) && (c <=? 13) || (28 <=? c) && (c <=? 32)
   || (c =? 133) || (c =? 160) || (c =? 5760)
   || (8192 <=? c) && (c <=? 8202)
   || (c =? 8232) || (c =? 8233) || (c =? 8239) || (c =? 8287)
   || (c =? 12288))%N.

Fixpoint lstrip (s : str) : str :=
  match s with
  | c :: s' => if is_space c then lstrip s' else s
  | [] => []
  end.

Definition rstrip (s : str) : str := rev (lstrip (rev s)).

(** [s.strip()] *)
Definition strip (s : str) : str := rstrip (lstrip s).

(** [s.split(sep)] for a one-character separator: never the empty list. *)
Fixpoint split (sep : N) (s : str) : list str :=
  match s with
  | [] => [[]]
  | c :: s' =>
      if N.eqb c sep then [] :: split sep s'
      else match split sep s' with
           | l :: ls => (c :: l) :: ls
           | [] => [[c]]
           end
  end.

Fixpoint startswith (s p : str) : bool :=
  match p, s with
  | [], _ => true
  | x :: p', y :: s' => N.eqb x y && startswith s' p'
  | _ :: _, [] => false
  end.

(** [needle in hay] on strings: substring containment. *)
Fixpoint str_in (needle hay : str) : bool :=
  startswith hay needle ||
  match hay with
  | [] => false
  | _ :: hay' => str_in needle hay'
  end.

(** [s.replace(old, new)] for a one-character [old]. *)
Definition replace (old : N) (new : str) (s : str) : str :=
  flat_map (fun c => if N.eqb c old then new else [c]) s.

Definition NEWLINE : N := 10%N.

(** Decimal digits of a [Decimal.uint], most significant first. *)
Fixpoint str_of_uint (d : Decimal.uint) : str :=
  match d with
  | Decimal.Nil => []
  | Decimal.D0 d' => 48%N :: str_of_uint d'
  | Decimal.D1 d' => 49%N :: str_of_uint d'
  | Decimal.D2 d' => 50%N :: str_of_uint d'
  | Decimal.D3 d' => 51%N :: str_of_uint d'
  | Decimal.D4 d' => 52%N :: str_of_uint d'
  | Decimal.D5 d' => 53%N :: str_of_uint d'
  | Decimal.D6 d' => 54%N :: str_of_uint d'
  | Decimal.D7 d' => 55%N :: str_of_uint d'
  | Decimal.D8 d' => 56%N :: str_of_uint d'
  | Decimal.D9 d' => 57%N :: str_of_uint d'
  end.

(** [str(n)] for a Python [int]. *)
Definition str_of_int (z : Z) : str :=
  match Z.to_int z with
  | Decimal.Pos d => str_of_uint d
  | Decimal.Neg d => 45%N :: str_of_uint d
  end.

(* ===================================================================== *)
(** ** Python [bytes] and the UTF-8 codec                                 *)
(* ===================================================================== *)

Definition bytes := list byte.

(** The value of a byte, 0..255. *)
Definition byte_val (b : byte) : Z := Z.of_N (Byte.to_N b).

Definition is_cont (b : byte) : bool :=
  (128 <=? byte_val b) && (byte_val b <=? 191).

Definition cont_bits (b : byte) : Z := Z.land (byte_val b) 63.

(** [b.decode('utf-8')] in strict mode: [None] stands for
    [UnicodeDecodeError].  Overlong forms, the surrogate range and code
    points past U+10FFFF are rejected, as the codec does. *)
Fixpoint utf8_decode (b : bytes) : option str :=
  match b with
  | [] => Some []
  | b0 :: r0 =>
      let n0 := byte_val b0 in
      if n0 <? 128 then option_map (cons (Z.to_N n0)) (utf8_decode r0)
      else if (194 <=? n0) && (n0 <=? 223) then
        match r0 with
        | b1 :: r1 =>
            if is_cont b1 then
              option_map
                (cons (Z.to_N (Z.lor (Z.shiftl (Z.land n0 31) 6) (cont_bits b1))))
                (utf8_decode r1)
            else None
        | _ => None
        end
      else if (224 <=? n0) && (n0 <=? 239) then
        match r0 with
        | b1 :: b2 :: r2 =>
            let n1 := byte_val b1 in
            let lo := if n0 =? 224 then 160 else 128 in
            let hi := if n0 =? 237 then 159 else 191 in
            if (lo <=? n1) && (n1 <=? hi) && is_cont b2 then
              option_map
                (cons (Z.to_N (Z.lor (Z.shiftl (Z.land n0 15) 12)
                                 (Z.lor (Z.shiftl (cont_bits b1) 6) (cont_bits b2)))))
                (utf8_decode r2)
            else None
        | _ => None
        end
      else if (240 <=? n0) && (n0 <=? 244) then
        match r0 with
        | b1 :: b2 :: b3 :: r3 =>
            let n1 := byte_val b1 in
            let lo := if n0 =? 240 then 144 else 128 in
            let hi := if n0 =? 244 then 143 else 191 in
            if (lo <=? n1) && (n1 <=? hi) && is_cont b2 && is_cont b3 then
              option_map
                (cons (Z.to_N (Z.lor (Z.shiftl (Z.land n0 7) 18)
                                 (Z.lor (Z.shiftl (cont_bits b1) 12)
                                    (Z.lor (Z.shiftl (cont_bits b2) 6) (cont_bits b3))))))
                (utf8_decode r3)
            else None
        | _ => None
        end
      else None
  end.

(** The bytes of an ASCII literal. *)
Definition ascii_bytes (s : str) : bytes :=
  map (fun c => match Byte.of_N c with Some b => b | None => x00 end) s.

(* ===================================================================== *)
(** ** Python [float]: IEEE 754 binary64                                  *)
(* ===================================================================== *)

Definition float := spec_float.

(** An integer as an exact (not yet rounded) operand. *)
Definition exact_int (z : Z) : float :=
  match z with
  | Z0 => S754_zero false
  | Zpos p => S754_finite false p 0
  | Zneg p => S754_finite true p 0
  end.

(** [float(z)]: the nearest binary64, ties to even. *)
Definition float_of_int (z : Z) : float := binary_normalize 53 1024 z 0 false.

(** [a / b] on two [int]s: the correctly rounded quotient. *)
Definition true_div (a b : Z) : float := SFdiv 53 1024 (exact_int a) (exact_int b).

Definition float_mul (x y : float) : float := SFmul 53 1024 x y.

(** [int(x)]: truncation toward zero; [None] where Python raises
    ([OverflowError] on an infinity, [ValueError] on a NaN). *)
Definition int_of_float (x : float) : option Z :=
  match x with
  | S754_zero _ => Some 0
  | S754_finite s m e =>
      let mag := if 0 <=? e then Zpos m * 2 ^ e else Zpos m / 2 ^ (- e) in
      Some (if s then - mag else mag)
  | S754_infinity _ | S754_nan => None
  end.

(** The literal [1e9]. *)
Definition f1e9 : float := float_of_int (10 ^ 9).

(* ===================================================================== *)
(** ** JSON values, as [json.loads] produces them                         *)
(* ===================================================================== *)

#[local] Set Warnings "-register-all".
Inductive value :=
| VNone
| VBool (b : bool)
| VInt (z : Z)
| VFloat (f : float)
| VStr (s : str)
| VList (l : list value)
| VDict (d : list (str * value)).

(** Truth value of an object in an [if]. *)
Definition truthy (v : value) : bool :=
  match v with
  | VNone => false
  | VBool b => b
  | VInt z => negb (z =? 0)
  | VFloat f => negb (SFeqb f (S754_zero false))
  | VStr s => match s with [] => false | _ => true end
  | VList l => match l with [] => false | _ => true end
  | VDict d => match d with [] => false | _ => true end
  end.

(** A [dict] keeps its items in insertion order; a key occurs once. *)
Fixpoint dict_get (d : list (str * value)) (k : str) : option value :=
  match d with
  | [] => None
  | (k', v) :: d' => if str_eqb k' k then Some v else dict_get d' k
  end.

Definition dict_has (d : list (str * value)) (k : str) : bool :=
  match dict_get d k with Some _ => true | None => false end.

(** [d[k] = v] *)
Fixpoint dict_set (d : list (str * value)) (k : str) (v : value) : list (str * value) :=
  match d with
  | [] => [(k, v)]
  | (k', v') :: d' => if str_eqb k' k then (k', v) :: d' else (k', v') :: dict_set d' k v
  end.

Definition is_dict (v : value) : bool :=
  match v with VDict _ => true | _ => false end.

(* ===================================================================== *)
(** ** [datetime]                                                         *)
(* ===================================================================== *)

(** A [datetime]; [utcoffset] is the offset of its [tzinfo] east of UTC in
    microseconds, [None] for a naive one. *)
Record datetime := mk_datetime {
  year : Z; month : Z; day : Z;
  hour : Z; minute : Z; second : Z; microsecond : Z;
  utcoffset : option Z
}.

Definition is_leap (y : Z) : bool :=
  (y mod 4 =? 0) && (negb (y mod 100 =? 0) || (y mod 400 =? 0)).

Definition days_before_year (y : Z) : Z :=
  let y1 := y - 1 in y1 * 365 + y1 / 4 - y1 / 100 + y1 / 400.

Definition days_before_month (y m : Z) : Z :=
  nth (Z.to_nat (m - 1)) [0; 31; 59; 90; 120; 151; 181; 212; 243; 273; 304; 334] 0
  + (if (2 <? m) && is_leap y then 1 else 0).

(** [date.toordinal()]: 1 for 0001-01-01. *)
Definition toordinal (y m d : Z) : Z := days_before_year y + days_before_month y m + d.

(** Microseconds from 1970-01-01T00:00:00+00:00 to an aware [datetime]
    whose offset is [off]: the [timedelta] [dt - epoch]. *)
Definition epoch_microseconds (dt : datetime) (off : Z) : Z :=
  ((toordinal (year dt) (month dt) (day dt) - toordinal 1970 1 1) * 86400
   + hour dt * 3600 + minute dt * 60 + second dt) * 1000000
  + microsecond dt - off.

(* ===================================================================== *)
(** ** Exceptions, effects and the outside world                          *)
(* ===================================================================== *)

(** What [requests] raises: every one is a [RequestException]. *)
Inductive request_failure :=
| ConnectionError
| Timeout
| TooManyRedirects
| HTTPError (status_code : Z).

Inductive exn :=
| BadGzipFile
| EOFError
| ZlibError
| UnicodeDecodeError
| ValueError
| OverflowError
| TypeError
| AttributeError
| KeyError
| JSONDecodeError
| RecursionError
| RequestException (k : request_failure).

Inductive outcome (A : Type) :=
| Ret (a : A)
| Raise (e : exn).
Arguments Ret {A} a.
Arguments Raise {A} e.

(** What [requests.post] comes back with. *)
Inductive post_result :=
| Response (status_code : Z)
| Failure (k : request_failure).

Inductive level := INFO | WARNING | ERROR.

(** One constructor per logging call of the source. *)
Inductive message :=
| UnauthorizedRequest (remote_addr : str)
| EmptyRequest
| DecompressionFailed (e : exn)
| ValidationRequest
| ParseFailed (line : str)
| NoValidLogs
| Processed (n : nat)
| PushFailed (e : exn)
| ProcessingError (e : exn).

(** What a request leaves behind: the records it logs and its calls of
    [requests.post] (URL, JSON payload, Content-Type header, timeout in
    seconds). *)
Inductive event :=
| Logged (l : level) (m : message)
| Posted (url : str) (payload : value) (content_type : str) (timeout : Z).

(** The library functions the source calls and does not contain. *)
Class PyLib := {
  (** [gzip.decompress] on data that starts with the gzip magic number *)
  gunzip : bytes -> outcome bytes;
  (** [json.loads] on a [str]: the value, or the exception raised --
      [JSONDecodeError] on a text that is no JSON document, and on some
      texts another one ([RecursionError] where containers nest too
      deep, [ValueError] on an integer of too many digits) *)
  json_loads : str -> outcome value;
  json_dumps : value -> str;
  (** [datetime.fromisoformat]; [None] is [ValueError] *)
  fromisoformat : str -> option datetime;
  (** [dt.timestamp()] of a naive [datetime], read in the host's local
      time zone; [None] where it raises *)
  naive_timestamp : datetime -> option float;
  (** [str(e)] *)
  exn_str : exn -> str
}.

(** The world of one request: the [n]-th evaluation of
    [int(time.time() * 1e9)], and what a call of [requests.post] comes
    back with -- the final response, or the exception raised. *)
Class World := {
  time_ns : nat -> Z;
  backend : str -> value -> post_result
}.

(** Module-level configuration, read from the environment at start-up. *)
Class Config := {
  LOKI_URL : str;
  AUTH_TOKEN : str
}.

Record state := mk_state {
  ticks : nat;
  trace : list event
}.

Definition M (A : Type) : Type := state -> outcome A * state.

Definition ret {A} (a : A) : M A := fun st => (Ret a, st).

Definition raise {A} (e : exn) : M A := fun st => (Raise e, st).

Definition bind {A B} (m : M A) (k : A -> M B) : M B :=
  fun st => match m st with
            | (Ret a, st') => k a st'
            | (Raise e, st') => (Raise e, st')
            end.

Notation "x <- m ;; k" := (bind m (fun x => k))
  (at level 100, m at next level, right associativity).
Notation "m ;;; k" := (bind m (fun _ => k))
  (at level 100, right associativity).

(** [try: m  except <matching e>: h e]; an exception [h] does not take
    goes on. *)
Definition try_except {A} (m : M A) (h : exn -> option (M A)) : M A :=
  fun st => match m st with
            | (Ret a, st') => (Ret a, st')
            | (Raise e, st') =>
                match h e with
                | Some k => k st'
                | None => (Raise e, st')
                end
            end.

Definition lift {A} (o : outcome A) : M A := fun st => (o, st).

(** The state after more events. *)
Definition add_events (st : state) (evs : list event) : state :=
  mk_state (ticks st) (trace st ++ evs).

Definition emit (e : event) : M unit :=
  fun st => (Ret tt, add_events st [e]).

Definition log (l : level) (m : message) : M unit := emit (Logged l m).

Definition initial : state := mk_state 0 [].

(** The pushes of a trace: URL and payload of each HTTP call, in order. *)
Definition posted (tr : list event) : list (str * value) :=
  flat_map (fun e => match e with
                     | Posted url payload _ _ => [(url, payload)]
                     | Logged _ _ => []
                     end) tr.

Definition empty (s : str) : bool := match s with [] => true | _ => false end.

(* ===================================================================== *)
(** ** The application                                                    *)
(* ===================================================================== *)

(** The methods under which the routes of [receive_logs] call it: the
    two of [methods=['POST', 'GET']], and [HEAD], which the routing adds
    to every rule that allows [GET].  Under any other method the routing
    answers itself ([OPTIONS], and 405 for the rest). *)
Inductive http_method := GET | HEAD | POST.

(** What [receive_logs] reads of [flask.request]. *)
Record request := mk_request {
  method : http_method;
  authorization : option str;   (* the Authorization header, when sent *)
  token_arg : option str;       (* the token query parameter, when given *)
  data : bytes;                 (* request.get_data() *)
  remote_addr : str
}.

(** [jsonify(body), status] *)
Definition response : Type := value * Z.

Definition status (r : response) : Z := snd r.

(** [mapping.get(key, default)] on headers and query arguments. *)
Definition get_or (o : option str) (default : str) : str :=
  match o with Some v => v | None => default end.

Section App.
Context {L : PyLib} {W : World} {C : Config}.

(** [time.time()] scaled to nanoseconds and printed:
    [str(int(time.time() * 1e9))]. *)
Definition now_ns : M str :=
  fun st => (Ret (str_of_int (time_ns (ticks st))),
             mk_state (S (ticks st)) (trace st)).

(** [dt.timestamp()] *)
Definition timestamp (dt : datetime) : M float :=
  match utcoffset dt with
  | Some off => ret (true_div (epoch_microseconds dt off) 1000000)
  | None => match naive_timestamp dt with
            | Some t => ret t
            | None => raise OverflowError
            end
  end.

(** [int(x)] *)
Definition py_int (x : float) : M Z :=
  match int_of_float x with
  | Some z => ret z
  | None => raise OverflowError
  end.

(** [log.get(key)] *)
Definition get (log : value) (key : str) : M value :=
  match log with
  | VDict d => ret (match dict_get d key with Some v => v | None => VNone end)
  | _ => raise AttributeError
  end.

(** [key in container] *)
Definition contains (container : value) (key : str) : M bool :=
  match container with
  | VDict d => ret (dict_has d key)
  | VStr s => ret (str_in key s)
  | VList l =>
      ret (existsb (fun x => match x with VStr s => str_eqb s key | _ => false end) l)
  | _ => raise TypeError
  end.

(** [container[key]] for a string key *)
Definition getitem (container : value) (key : str) : M value :=
  match container with
  | VDict d => match dict_get d key with
               | Some v => ret v
               | None => raise KeyError
               end
  | _ => raise TypeError
  end.

(** Lines 42-56 of [push_to_loki]: the timestamp of one record. *)
Definition ts_ns_of (log : value) : M str :=
  timestamp_ <- get log (lit "EdgeStartTimestamp") ;;
  if truthy timestamp_ then
    try_except
      (match timestamp_ with
       | VStr s =>
           match fromisoformat (replace 90%N (lit "+00:00") s) with
           | Some dt =>
               t <- timestamp dt ;;
               n <- py_int (float_mul t f1e9) ;;
               ret (str_of_int n)
           | None => raise ValueError
           end
       | _ => now_ns
       end)
      (fun _ => Some now_ns)
  else now_ns.

(** The [for log in logs] loop of [push_to_loki]. *)
Fixpoint build_values (logs : list value) (values : list value) : M (list value) :=
  match logs with
  | [] => ret values
  | log :: rest =>
      ts_ns <- ts_ns_of log ;;
      build_values rest (values ++ [VList [VStr ts_ns; VStr (json_dumps log)]])
  end.

(** [requests.post(url, json=payload, headers=..., timeout=30)] *)
Definition requests_post (url : str) (payload : value) : M Z :=
  emit (Posted url payload (lit "application/json") 30) ;;;
  match backend url payload with
  | Response code => ret code
  | Failure k => raise (RequestException k)
  end.

(** [response.raise_for_status()]: [HTTPError] on a 4xx or 5xx status. *)
Definition raise_for_status (status_code : Z) : M unit :=
  if (400 <=? status_code) && (status_code <? 600)
  then raise (RequestException (HTTPError status_code))
  else ret tt.

Definition default_labels : value :=
  VDict [(lit "job", VStr (lit "cloudflare")); (lit "source", VStr (lit "logpush"))].

Definition push_to_loki (logs : list value) (labels : option value) : M bool :=
  match logs with
  | [] => ret true
  | _ =>
      let labels := match labels with None => default_labels | Some l => l end in
      values <- build_values logs [] ;;
      let streams := [VDict [(lit "stream", labels); (lit "values", VList values)]] in
      let payload := VDict [(lit "streams", VList streams)] in
      try_except
        (response <- requests_post (LOKI_URL ++ lit "/loki/api/v1/push") payload ;;
         raise_for_status response ;;;
         ret true)
        (fun e => match e with
                  | RequestException _ => Some (log ERROR (PushFailed e) ;;; ret false)
                  | _ => None
                  end)
  end.

Definition health : M response :=
  ret (VDict [(lit "status", VStr (lit "healthy"))], 200).

(** The gzip magic number, 1f 8b, at the front. *)
Definition has_magic (data_ : bytes) : bool :=
  match data_ with
  | b0 :: b1 :: _ => Byte.eqb b0 x1f && Byte.eqb b1 x8b
  | _ => false
  end.

(** [gzip.decompress]: the library reads the two magic bytes first -- no
    bytes at all give no data, other bytes than 1f 8b are not a gzip file
    -- and only then inflates ([gunzip]). *)
Definition gzip_decompress (data_ : bytes) : M bytes :=
  match data_ with
  | [] => ret []
  | _ => if has_magic data_ then lift (gunzip data_) else raise BadGzipFile
  end.

(** [b.decode('utf-8')] *)
Definition decode (b : bytes) : M str :=
  match utf8_decode b with
  | Some s => ret s
  | None => raise UnicodeDecodeError
  end.

(** Lines 120-129 of [receive_logs]: the body as text. *)
Definition decode_body (data_ : bytes) : M str :=
  try_except
    (decompressed <- gzip_decompress data_ ;;
     decode decompressed)
    (fun e => match e with
              | BadGzipFile => Some (decode data_)
              | _ => Some (log WARNING (DecompressionFailed e) ;;; decode data_)
              end).

(** The literal [{"content":"tests"}] of line 132. *)
Definition PROBE : str :=
  lit "{" ++ quoted "content" ++ lit ":" ++ quoted "tests" ++ lit "}".

(** The [for line in ...] loop of lines 138-147.  The [except] of line
    145 names [json.JSONDecodeError]: any other exception of
    [json.loads] leaves the loop. *)
Fixpoint parse_lines (lines : list str) (logs : list value) : M (list value) :=
  match lines with
  | [] => ret logs
  | line :: rest =>
      let line := strip line in
      if empty line then parse_lines rest logs
      else match json_loads line with
           | Ret log_entry => parse_lines rest (logs ++ [log_entry])
           | Raise JSONDecodeError =>
               log WARNING (ParseFailed line) ;;; parse_lines rest logs
           | Raise e => raise e
           end
  end.

(** Lines 136-147: the NDJSON parser. *)
Definition parse_ndjson (content : str) : M (list value) :=
  parse_lines (split NEWLINE (strip content)) [].

(** Lines 153-162: the labels of a batch, from its first record. *)
Definition derive_labels (sample_log : value) : M value :=
  let labels := [(lit "job", VStr (lit "cloudflare")); (lit "source", VStr (lit "logpush"))] in
  has_host <- contains sample_log (lit "ClientRequestHost") ;;
  if has_host then
    host <- getitem sample_log (lit "ClientRequestHost") ;;
    ret (VDict (dict_set labels (lit "host") host))
  else ret (VDict labels).

Definition error_body (msg : str) : value := VDict [(lit "error", VStr msg)].

Definition ok_processed (n : nat) : value :=
  VDict [(lit "status", VStr (lit "ok")); (lit "processed", VInt (Z.of_nat n))].

(** Lines 149-171: what [receive_logs] does with the parsed batch. *)
Definition handle_batch (logs : list value) : M response :=
  match logs with
  | [] =>
      log INFO NoValidLogs ;;;
      ret (ok_processed 0, 200)
  | sample_log :: _ =>
      labels <- derive_labels sample_log ;;
      success <- push_to_loki logs (Some labels) ;;
      if success then
        log INFO (Processed (List.length logs)) ;;;
        ret (ok_processed (List.length logs), 200)
      else
        ret (error_body (lit "Failed to push to Loki"), 500)
  end.

Definition SUCCESS : value :=
  VDict [(lit "text", VStr (lit "Success")); (lit "code", VInt 0)].

(** Lines 173-175: the handler of the outer [try]. *)
Definition internal_error (e : exn) : M response :=
  log ERROR (ProcessingError e) ;;;
  ret (error_body (exn_str e), 500).

(** Lines 112-175: the [try] block of [receive_logs] with its handler. *)
Definition process (req : request) : M response :=
  try_except
    (let data_ := data req in
     match data_ with
     | [] =>
         log WARNING EmptyRequest ;;;
         ret (error_body (lit "No data received"), 400)
     | _ =>
         content <- decode_body data_ ;;
         if str_in PROBE content then
           log INFO ValidationRequest ;;;
           ret (SUCCESS, 200)
         else
           logs <- parse_ndjson content ;;
           handle_batch logs
     end)
    (fun e => Some (internal_error e)).

(** The condition of line 108, under the guard of line 106. *)
Definition unauthorized (req : request) : bool :=
  negb (str_eqb AUTH_TOKEN (lit "changeme"))
  && (negb (str_eqb (get_or (authorization req) []) (lit "Bearer " ++ AUTH_TOKEN))
      && negb (str_in AUTH_TOKEN (get_or (token_arg req) []))).

Definition receive_logs (req : request) : M response :=
  match method req with
  | GET =>
      ret (VDict [(lit "status", VStr (lit "ok"));
                  (lit "message", VStr (lit "Cloudflare Logpush receiver ready"))], 200)
  | _ =>
      if unauthorized req then
        log WARNING (UnauthorizedRequest (remote_addr req)) ;;;
        ret (error_body (lit "Unauthorized"), 401)
      else process req
  end.

Definition test_log : value :=
  VDict [(lit "ClientIP", VStr (lit "1.2.3.4"));
         (lit "ClientRequestHost", VStr (lit "test.example.com"));
         (lit "ClientRequestMethod", VStr (lit "GET"));
         (lit "ClientRequestURI", VStr (lit "/test"));
         (lit "EdgeResponseStatus", VInt 200);
         (lit "EdgeStartTimestamp", VStr (lit "2024-01-01T00:00:00Z"));
         (lit "RayID", VStr (lit "test-ray-id"))].

Definition test_endpoint : M response :=
  success <- push_to_loki [test_log]
               (Some (VDict [(lit "job", VStr (lit "cloudflare"));
                             (lit "source", VStr (lit "test"))])) ;;
  if success then
    ret (VDict [(lit "status", VStr (lit "ok"));
                (lit "message", VStr (lit "Test log pushed to Loki"))], 200)
  else ret (error_body (lit "Failed to push test log"), 500).

End App.

(* ===================================================================== *)
(** ** A reference library                                                *)
(* ===================================================================== *)

(** The theorems below hold for every [PyLib].  To evaluate the
    application on concrete requests one library is fixed here; each part
    says which inputs of the CPython function it covers. *)

Module Ref.

Definition obind {A B} (o : option A) (k : A -> option B) : option B :=
  match o with Some a => k a | None => None end.

Notation "'let?' x := o 'in' k" := (obind o (fun x => k))
  (at level 10, x pattern, k at level 200).

(** The same for results that may be an exception. *)
Definition tbind {A B} (o : outcome A) (k : A -> outcome B) : outcome B :=
  match o with Ret a => k a | Raise e => Raise e end.

Notation "'let!' x := o 'in' k" := (tbind o (fun x => k))
  (at level 10, x pattern, k at level 200).

Definition is_digit (c : N) : bool := ((48 <=? c) && (c <=? 57))%N.

Definition digit_val (c : N) : Z := Z.of_N c - 48.

(** Exactly [n] decimal digits. *)
Fixpoint read_digits (n : nat) (s : str) (acc : Z) : option (Z * str) :=
  match n with
  | O => Some (acc, s)
  | S n' =>
      match s with
      | c :: s' => if is_digit c then read_digits n' s' (acc * 10 + digit_val c) else None
      | [] => None
      end
  end.

Definition expect (c : N) (s : str) : option str :=
  match s with
  | x :: s' => if N.eqb x c then Some s' else None
  | [] => None
  end.

Definition days_in_month (y m : Z) : Z :=
  if (m =? 2) && is_leap y then 29
  else nth (Z.to_nat (m - 1)) [31; 28; 31; 30; 31; 30; 31; 31; 30; 31; 30; 31] 0.

(** The fraction of a second: [.fff] or [.ffffff], or nothing. *)
Definition read_fraction (s : str) : option (Z * str) :=
  match s with
  | 46%N :: s1 =>
      let? (ms, s2) := read_digits 3 s1 0 in
      match s2 with
      | c :: _ => if is_digit c
                  then let? (us, s3) := read_digits 3 s2 ms in Some (us, s3)
                  else Some (ms * 1000, s2)
      | [] => Some (ms * 1000, s2)
      end
  | _ => Some (0, s)
  end.

(** The UTC offset [+HH:MM] or [-HH:MM] at the end, or nothing; it must
    stay within a day. *)
Definition read_offset (s : str) : option (option Z) :=
  match s with
  | [] => Some None
  | sign :: s1 =>
      if N.eqb sign 43 || N.eqb sign 45 then
        let? (oh, s2) := read_digits 2 s1 0 in
        let? s3 := expect 58 s2 in
        let? (om, s4) := read_digits 2 s3 0 in
        let off := (oh * 3600 + om * 60) * 1000000 in
        if empty s4 && (off <? 86400000000)
        then Some (Some (if N.eqb sign 45 then - off else off))
        else None
      else None
  end.

(** [datetime.fromisoformat] on the layouts
    [YYYY-MM-DD] and [YYYY-MM-DD*HH:MM:SS[.fff[fff]][+HH:MM]], which every
    CPython from 3.7 on reads this way.  (Later versions read more
    layouts; on those this parser answers [None].) *)
Definition fromisoformat (s : str) : option datetime :=
  let? (y, s1) := read_digits 4 s 0 in
  let? s2 := expect 45 s1 in
  let? (m, s3) := read_digits 2 s2 0 in
  let? s4 := expect 45 s3 in
  let? (d, s5) := read_digits 2 s4 0 in
  if (1 <=? y) && (1 <=? m) && (m <=? 12) && (1 <=? d) && (d <=? days_in_month y m) then
    match s5 with
    | [] => Some (mk_datetime y m d 0 0 0 0 None)
    | _ :: s6 =>
        let? (hh, s7) := read_digits 2 s6 0 in
        let? s8 := expect 58 s7 in
        let? (mi, s9) := read_digits 2 s8 0 in
        let? s10 := expect 58 s9 in
        let? (ss, s11) := read_digits 2 s10 0 in
        let? (us, s12) := read_fraction s11 in
        let? off := read_offset s12 in
        if (hh <? 24) && (mi <? 60) && (ss <? 60)
        then Some (mk_datetime y m d hh mi ss us off)
        else None
    end
  else None.

(** [dt.timestamp()] of a naive [datetime] on a host whose local time is
    UTC: whole seconds plus [microsecond / 1e6]. *)
Definition naive_timestamp (dt : datetime) : option float :=
  Some (SFadd 53 1024
          (float_of_int (epoch_microseconds
                           (mk_datetime (year dt) (month dt) (day dt)
                              (hour dt) (minute dt) (second dt) 0 None) 0 / 1000000))
          (SFdiv 53 1024 (float_of_int (microsecond dt)) (float_of_int 1000000))).

(* --------------------------------------------------------------------- *)
(** *** JSON text to values                                               *)
(* --------------------------------------------------------------------- *)

Definition is_ws (c : N) : bool :=
  (N.eqb c 32 || N.eqb c 9 || N.eqb c 10 || N.eqb c 13).

Fixpoint skip_ws (s : str) : str :=
  match s with
  | c :: s' => if is_ws c then skip_ws s' else s
  | [] => []
  end.

Definition hex_val (c : N) : option Z :=
  if is_digit c then Some (Z.of_N c - 48)
  else if ((97 <=? c) && (c <=? 102))%N then Some (Z.of_N c - 87)
  else if ((65 <=? c) && (c <=? 70))%N then Some (Z.of_N c - 55)
  else None.

Definition hex4 (a b c d : N) : option Z :=
  let? x := hex_val a in
  let? y := hex_val b in
  let? z := hex_val c in
  let? w := hex_val d in
  Some (((x * 16 + y) * 16 + z) * 16 + w).

(** The body of a JSON string, after its opening quote (strict mode: no
    raw control characters; a surrogate pair of escapes is one code
    point). *)
Fixpoint scan_string (s : str) (acc : str) : option (str * str) :=
  match s with
  | [] => None
  | 34%N :: r => Some (rev acc, r)
  | 92%N :: e :: r =>
      match e with
      | 34%N => scan_string r (34%N :: acc)
      | 92%N => scan_string r (92%N :: acc)
      | 47%N => scan_string r (47%N :: acc)
      | 98%N => scan_string r (8%N :: acc)
      | 102%N => scan_string r (12%N :: acc)
      | 110%N => scan_string r (10%N :: acc)
      | 114%N => scan_string r (13%N :: acc)
      | 116%N => scan_string r (9%N :: acc)
      | 117%N =>
          match r with
          | h1 :: h2 :: h3 :: h4 :: r1 =>
              match hex4 h1 h2 h3 h4 with
              | Some cp =>
                  if (55296 <=? cp) && (cp <=? 56319) then
                    match r1 with
                    | 92%N :: 117%N :: g1 :: g2 :: g3 :: g4 :: r2 =>
                        match hex4 g1 g2 g3 g4 with
                        | Some lo =>
                            if (56320 <=? lo) && (lo <=? 57343)
                            then scan_string r2
                                   (Z.to_N (65536 + (cp - 55296) * 1024 + (lo - 56320)) :: acc)
                            else scan_string r1 (Z.to_N cp :: acc)
                        | None => scan_string r1 (Z.to_N cp :: acc)
                        end
                    | _ => scan_string r1 (Z.to_N cp :: acc)
                    end
                  else scan_string r1 (Z.to_N cp :: acc)
              | None => None
              end
          | _ => None
          end
      | _ => None
      end
  | c :: r => if (c <? 32)%N || N.eqb c 92 then None else scan_string r (c :: acc)
  end.

(** The longest run of digits at the front. *)
Fixpoint span_digits (s : str) : str * str :=
  match s with
  | c :: s' => if is_digit c
               then let (ds, r) := span_digits s' in (c :: ds, r)
               else ([], s)
  | [] => ([], [])
  end.

Definition digits_val (ds : str) : Z :=
  fold_left (fun acc c => acc * 10 + digit_val c) ds 0.

(** The decimal number [(-1)^neg * d * 10^e] as a [float], correctly
    rounded. *)
Definition float_of_decimal (neg : bool) (d e : Z) : float :=
  if d =? 0 then S754_zero neg
  else
    let sd := if neg then - d else d in
    if 0 <=? e then float_of_int (sd * 10 ^ e)
    else true_div sd (10 ^ (- e)).

(** No JSON here: [json.JSONDecodeError]. *)
Definition no_json {A} : outcome A := Raise JSONDecodeError.

Definition or_no_json {A} (o : option A) : outcome A :=
  match o with Some a => Ret a | None => no_json end.

(** The digits [int] converts from a string
    ([sys.int_info.default_max_str_digits], since CPython 3.11); past
    them the conversion raises [ValueError]. *)
Definition MAX_STR_DIGITS : nat := 4300.

(** The containers a document may nest before [json.loads] raises
    [RecursionError]: CPython's default recursion limit.  An interpreter
    raises some levels earlier, by the frames its caller has on the
    stack. *)
Definition RECURSION_LIMIT : nat := 1000.

(** A JSON number: an optional minus, an integer part without leading
    zero, an optional fraction, an optional exponent; an [int] without
    fraction and exponent, a [float] otherwise. *)
Definition scan_number (s : str) : outcome (value * str) :=
  let (neg, s0) := match s with
                   | 45%N :: r => (true, r)
                   | _ => (false, s)
                   end in
  let (ip, s1) := span_digits s0 in
  match ip with
  | [] => no_json
  | d0 :: _ =>
      let (ip, s1) := if N.eqb d0 48 then ([48%N], tl s0) else (ip, s1) in
      let (fp, s2) := match s1 with
                      | 46%N :: r =>
                          match span_digits r with
                          | ([], _) => ([], s1)
                          | (fp, r') => (fp, r')
                          end
                      | _ => ([], s1)
                      end in
      let '(has_exp, ex, s3) :=
        match s2 with
        | c :: r =>
            if N.eqb c 101 || N.eqb c 69 then
              let (eneg, r0) := match r with
                                | 45%N :: r' => (true, r')
                                | 43%N :: r' => (false, r')
                                | _ => (false, r)
                                end in
              match span_digits r0 with
              | ([], _) => (false, 0, s2)
              | (ed, r') => (true, (if eneg then - digits_val ed else digits_val ed), r')
              end
            else (false, 0, s2)
        | [] => (false, 0, s2)
        end in
      if empty fp && negb has_exp
      then if (MAX_STR_DIGITS <? List.length ip)%nat then Raise ValueError
           else Ret (VInt (if neg then - digits_val ip else digits_val ip), s3)
      else Ret (VFloat (float_of_decimal neg (digits_val (ip ++ fp))
                          (ex - Z.of_nat (List.length fp))), s3)
  end.

Definition keyword (k : string) (v : value) (s : str) : outcome (value * str) :=
  if startswith s (lit k)
  then Ret (v, skipn (List.length (lit k)) s)
  else no_json.

(** One JSON value at the front of [s] (which starts with no white
    space), and what follows it; [depth] is the number of containers
    that may still be entered. *)
Fixpoint parse_value (fuel depth : nat) (s : str) : outcome (value * str) :=
  match fuel with
  | O => no_json
  | S f =>
      match s with
      | 34%N :: r => let! (t, r') := or_no_json (scan_string r []) in Ret (VStr t, r')
      | 91%N :: r =>
          match depth with
          | O => Raise RecursionError
          | S d =>
              match skip_ws r with
              | 93%N :: r' => Ret (VList [], r')
              | r' => parse_elems f d r' []
              end
          end
      | 123%N :: r =>
          match depth with
          | O => Raise RecursionError
          | S d =>
              match skip_ws r with
              | 125%N :: r' => Ret (VDict [], r')
              | r' => parse_members f d r' []
              end
          end
      | 110%N :: _ => keyword "null" VNone s
      | 116%N :: _ => keyword "true" (VBool true) s
      | 102%N :: _ => keyword "false" (VBool false) s
      | 78%N :: _ => keyword "NaN" (VFloat S754_nan) s
      | 73%N :: _ => keyword "Infinity" (VFloat (S754_infinity false)) s
      | 45%N :: 73%N :: _ => keyword "-Infinity" (VFloat (S754_infinity true)) s
      | _ => scan_number s
      end
  end
with parse_elems (fuel depth : nat) (s : str) (acc : list value) : outcome (value * str) :=
  match fuel with
  | O => no_json
  | S f =>
      let! (v, r) := parse_value f depth s in
      match skip_ws r with
      | 44%N :: r' => parse_elems f depth (skip_ws r') (v :: acc)
      | 93%N :: r' => Ret (VList (rev (v :: acc)), r')
      | _ => no_json
      end
  end
with parse_members (fuel depth : nat) (s : str) (acc : list (str * value)) : outcome (value * str) :=
  match fuel with
  | O => no_json
  | S f =>
      match s with
      | 34%N :: r =>
          let! (k, r1) := or_no_json (scan_string r []) in
          match skip_ws r1 with
          | 58%N :: r2 =>
              let! (v, r3) := parse_value f depth (skip_ws r2) in
              match skip_ws r3 with
              | 44%N :: r' => parse_members f depth (skip_ws r') (dict_set acc k v)
              | 125%N :: r' => Ret (VDict (dict_set acc k v), r')
              | _ => no_json
              end
          | _ => no_json
          end
      | _ => no_json
      end
  end.

(** [json.loads] on a [str]: one value, white space around it allowed,
    nothing else.  A text that is no such document raises
    [JSONDecodeError]; an integer of more than [MAX_STR_DIGITS] digits
    raises [ValueError] and a container inside [RECURSION_LIMIT] others
    [RecursionError], when the scan comes to them. *)
Definition json_loads (s : str) : outcome value :=
  let! (v, r) := parse_value (S (List.length s)) RECURSION_LIMIT (skip_ws s) in
  if empty (skip_ws r) then Ret v else no_json.

(* --------------------------------------------------------------------- *)
(** *** Values to JSON text                                               *)
(* --------------------------------------------------------------------- *)

Definition hex_digit (n : Z) : N :=
  if n <? 10 then Z.to_N (48 + n) else Z.to_N (87 + n).

(** [\uXXXX] *)
Definition u_escape (cp : Z) : str :=
  [92%N; 117%N;
   hex_digit (Z.shiftr cp 12 mod 16); hex_digit (Z.shiftr cp 8 mod 16);
   hex_digit (Z.shiftr cp 4 mod 16); hex_digit (cp mod 16)].

Definition escape_char (c : N) : str :=
  let z := Z.of_N c in
  if N.eqb c 34 then [92%N; 34%N]
  else if N.eqb c 92 then [92%N; 92%N]
  else if N.eqb c 10 then [92%N; 110%N]
  else if N.eqb c 13 then [92%N; 114%N]
  else if N.eqb c 9 then [92%N; 116%N]
  else if N.eqb c 8 then [92%N; 98%N]
  else if N.eqb c 12 then [92%N; 102%N]
  else if (32 <=? z) && (z <=? 126) then [c]
  else if z <? 65536 then u_escape z
  else u_escape (55296 + Z.shiftr (z - 65536) 10)
       ++ u_escape (56320 + Z.land (z - 65536) 1023).

Definition encode_string (s : str) : str :=
  DQUOTE :: flat_map escape_char s ++ [DQUOTE].

Fixpoint join (sep : str) (parts : list str) : str :=
  match parts with
  | [] => []
  | [p] => p
  | p :: ps => p ++ sep ++ join sep ps
  end.

(** [repr] of a [float] that is not finite, or is a whole number below
    [1e16] in magnitude; other floats are not covered (they are printed
    like the whole number they truncate to). *)
Definition float_repr (f : float) : str :=
  match f with
  | S754_nan => lit "NaN"
  | S754_infinity false => lit "Infinity"
  | S754_infinity true => lit "-Infinity"
  | S754_zero false => lit "0.0"
  | S754_zero true => lit "-0.0"
  | S754_finite sg _ _ =>
      match int_of_float f with
      | Some z => (if sg && (z =? 0) then lit "-" else []) ++ str_of_int z ++ lit ".0"
      | None => []
      end
  end.

(** [json.dumps] with its defaults: [", "] and [": "] as separators,
    non-ASCII characters escaped. *)
Fixpoint json_dumps (v : value) : str :=
  match v with
  | VNone => lit "null"
  | VBool true => lit "true"
  | VBool false => lit "false"
  | VInt z => str_of_int z
  | VFloat f => float_repr f
  | VStr s => encode_string s
  | VList l => lit "[" ++ join (lit ", ") (map json_dumps l) ++ lit "]"
  | VDict d =>
      lit "{"
      ++ join (lit ", ")
           (map (fun kv => encode_string (fst kv) ++ lit ": " ++ json_dumps (snd kv)) d)
      ++ lit "}"
  end.

(* --------------------------------------------------------------------- *)
(** *** gzip members made of stored blocks                                *)
(* --------------------------------------------------------------------- *)

Definition crc_step (c : Z) : Z :=
  if Z.testbit c 0 then Z.lxor (Z.shiftr c 1) 3988292384 else Z.shiftr c 1.

Definition crc_byte (c : Z) (b : byte) : Z :=
  Nat.iter 8 crc_step (Z.lxor c (byte_val b)).

(** [zlib.crc32] *)
Definition crc32 (d : bytes) : Z :=
  Z.lxor (fold_left crc_byte d 4294967295) 4294967295.

Definition le16 (b0 b1 : byte) : Z := byte_val b0 + 256 * byte_val b1.

Definition le32 (b0 b1 b2 b3 : byte) : Z := le16 b0 b1 + 65536 * le16 b2 b3.

(** Skips a zero-terminated field (file name, comment). *)
Fixpoint skip_cstring (d : bytes) : bytes :=
  match d with
  | [] => []
  | b :: r => if Byte.eqb b x00 then r else skip_cstring r
  end.

Definition skip_exact (n : Z) (d : bytes) : outcome bytes :=
  if Z.of_nat (List.length d) <? n then Raise EOFError
  else Ret (skipn (Z.to_nat n) d).

(** The member header after the magic number: method, flags, mtime,
    extra flags and OS, then the optional fields the flags announce. *)
Definition read_header (d : bytes) : outcome bytes :=
  match d with
  | cm :: flg :: _ :: _ :: _ :: _ :: _ :: _ :: r =>
      if negb (byte_val cm =? 8) then Raise BadGzipFile
      else
        let f := byte_val flg in
        match (if Z.testbit f 2
               then match r with
                    | x0 :: x1 :: r' => skip_exact (le16 x0 x1) r'
                    | _ => Raise EOFError
                    end
               else Ret r) with
        | Raise e => Raise e
        | Ret r1 =>
            let r2 := if Z.testbit f 3 then skip_cstring r1 else r1 in
            let r3 := if Z.testbit f 4 then skip_cstring r2 else r2 in
            if Z.testbit f 1 then skip_exact 2 r3 else Ret r3
        end
  | _ => Raise EOFError
  end.

(** A deflate stream of stored blocks (type 0), as [compresslevel=0]
    writes it: the data and what follows the final block.  A Huffman-coded
    block (type 1 or 2) is not covered and answered like a corrupt one. *)
Fixpoint inflate_stored (fuel : nat) (d : bytes) (out : bytes) : outcome (bytes * bytes) :=
  match fuel with
  | O => Raise EOFError
  | S f =>
      match d with
      | h :: l0 :: l1 :: n0 :: n1 :: r =>
          let len := le16 l0 l1 in
          if negb (Z.land (Z.shiftr (byte_val h) 1) 3 =? 0) then Raise ZlibError
          else if negb (len + le16 n0 n1 =? 65535) then Raise ZlibError
          else if Z.of_nat (List.length r) <? len then Raise EOFError
          else
            let out' := out ++ firstn (Z.to_nat len) r in
            let r' := skipn (Z.to_nat len) r in
            if Z.testbit (byte_val h) 0 then Ret (out', r')
            else inflate_stored f r' out'
      | _ => Raise EOFError
      end
  end.

Fixpoint lstrip_zero (d : bytes) : bytes :=
  match d with
  | b :: r => if Byte.eqb b x00 then lstrip_zero r else d
  | [] => []
  end.

(** The members of a gzip file, one after the other. *)
Fixpoint members (fuel : nat) (d : bytes) (acc : bytes) : outcome bytes :=
  match fuel with
  | O => Raise EOFError
  | S f =>
      match d with
      | [] => Ret acc
      | b0 :: b1 :: r =>
          if negb (Byte.eqb b0 x1f && Byte.eqb b1 x8b) then Raise BadGzipFile
          else
            match read_header r with
            | Raise e => Raise e
            | Ret body =>
                match inflate_stored (S (List.length body)) body [] with
                | Raise e => Raise e
                | Ret (out, c0 :: c1 :: c2 :: c3 :: s0 :: s1 :: s2 :: s3 :: rest) =>
                    if negb (le32 c0 c1 c2 c3 =? crc32 out) then Raise BadGzipFile
                    else if negb (le32 s0 s1 s2 s3 =? Z.of_nat (List.length out) mod 4294967296)
                         then Raise BadGzipFile
                    else members f (lstrip_zero rest) (acc ++ out)
                | Ret _ => Raise EOFError
                end
            end
      | [_] => Raise BadGzipFile
      end
  end.

(** [gzip.decompress] on files whose deflate streams are stored blocks. *)
Definition gunzip (d : bytes) : outcome bytes := members (S (List.length d)) d [].

Definition byte_of (z : Z) : byte :=
  match Byte.of_N (Z.to_N (z mod 256)) with Some b => b | None => x00 end.

Definition le32_bytes (z : Z) : bytes :=
  [byte_of z; byte_of (Z.shiftr z 8); byte_of (Z.shiftr z 16); byte_of (Z.shiftr z 24)].

(** Storing, the inverse: what [gzip.compress(d, compresslevel=0, mtime=0)]
    writes for less than 65536 bytes (one member, one stored block). *)
Definition store (d : bytes) : bytes :=
  let n := Z.of_nat (List.length d) in
  [x1f; x8b; x08; x00; x00; x00; x00; x00; x04; x03]
  ++ [x01; byte_of n; byte_of (Z.shiftr n 8);
      byte_of (65535 - n); byte_of (Z.shiftr (65535 - n) 8)]
  ++ d ++ le32_bytes (crc32 d) ++ le32_bytes n.

(** The message texts are CPython's and change with its version; the
    reference library prints the name of the class. *)
Definition exn_str (e : exn) : str :=
  match e with
  | BadGzipFile => lit "BadGzipFile"
  | EOFError => lit "EOFError"
  | ZlibError => lit "zlib.error"
  | UnicodeDecodeError => lit "UnicodeDecodeError"
  | ValueError => lit "ValueError"
  | OverflowError => lit "OverflowError"
  | TypeError => lit "TypeError"
  | AttributeError => lit "AttributeError"
  | KeyError => lit "KeyError"
  | JSONDecodeError => lit "JSONDecodeError"
  | RecursionError => lit "RecursionError"
  | RequestException _ => lit "RequestException"
  end.

Definition lib : PyLib :=
  Build_PyLib gunzip json_loads json_dumps fromisoformat naive_timestamp exn_str.

(** A world whose clock starts on 2023-11-14T22:13:20Z and whose backend
    accepts every push with 204 No Content, as Loki does. *)
Definition world : World :=
  Build_World (fun n => 1700000000000000000 + Z.of_nat n) (fun _ _ => Response 204).

(** A world whose backend answers [code] to every push. *)
Definition world_answering (code : Z) : World :=
  Build_World (fun n => 1700000000000000000 + Z.of_nat n) (fun _ _ => Response code).


(** The configuration when the environment sets nothing. *)
Definition defaults : Config :=
  Build_Config (lit "http://loki:3100") (lit "changeme").

(** A configuration with a token of the operator's. *)
Definition secured : Config :=
  Build_Config (lit "http://loki:3100") (lit "s3cret").

End Ref.

(* ===================================================================== *)
(** ** Vocabulary of the properties                                       *)
(* ===================================================================== *)

(** Only white space. *)
Definition blank (s : str) : bool := forallb is_space s.

(** The lines of a text as the specification words it: split on newline
    characters, each line trimmed, blank lines skipped. *)
Definition lines_of (text : str) : list str :=
  filter (fun l => negb (empty l)) (map strip (split NEWLINE text)).

(** The request with another body. *)
Definition with_data (req : request) (d : bytes) : request :=
  mk_request (method req) (authorization req) (token_arg req) d (remote_addr req).

(** NDJSON: every line ends in a newline. *)
Definition ndjson (lines : list str) : str :=
  flat_map (fun l => l ++ [NEWLINE]) lines.

(** A record that is none of object, string and array. *)
Definition scalar (v : value) : bool :=
  match v with
  | VNone | VBool _ | VInt _ | VFloat _ => true
  | VStr _ | VList _ | VDict _ => false
  end.

(** The labels of a batch whose first record is the object [d]. *)
Definition labels_of (d : list (str * value)) : list (str * value) :=
  [(lit "job", VStr (lit "cloudflare")); (lit "source", VStr (lit "logpush"))]
  ++ match dict_get d (lit "ClientRequestHost") with
     | Some h => [(lit "host", h)]
     | None => []
     end.

(** The push payload of one stream. *)
Definition stream_payload (labels : value) (values : list value) : value :=
  VDict [(lit "streams",
          VList [VDict [(lit "stream", labels); (lit "values", VList values)]])].

(** Why a push counts as failed, if it does: the exception [requests]
    raises, either by itself or from [raise_for_status]. *)
Definition push_error (r : post_result) : option request_failure :=
  match r with
  | Response code =>
      if (400 <=? code) && (code <? 600) then Some (HTTPError code) else None
  | Failure k => Some k
  end.


Section Vocabulary.
Context {L : PyLib} {W : World} {C : Config}.

(** The records of lines, each parsed on its own as one JSON value: a
    line that is no JSON is dropped; the exception of the first line on
    which [json.loads] raises anything else takes the place of the
    records. *)
Fixpoint records_of (lines : list str) : outcome (list value) :=
  match lines with
  | [] => Ret []
  | l :: rest =>
      match json_loads l with
      | Ret v =>
          match records_of rest with
          | Ret vs => Ret (v :: vs)
          | Raise e => Raise e
          end
      | Raise JSONDecodeError => records_of rest
      | Raise e => Raise e
      end
  end.

(** The warnings on the way: one for each line that is no JSON, up to
    the first line on which [json.loads] raises anything else. *)
Fixpoint warnings_of (lines : list str) : list event :=
  match lines with
  | [] => []
  | l :: rest =>
      match json_loads l with
      | Ret _ => warnings_of rest
      | Raise JSONDecodeError => Logged WARNING (ParseFailed l) :: warnings_of rest
      | Raise _ => []
      end
  end.

(** What the parser makes of a text: the records of its lines, or the
    exception that ends the parse. *)
Definition parse_spec (text : str) : outcome (list value) := records_of (lines_of text).




(** The body [data_] carries the text [content], plain or gzipped. *)
Inductive carries (data_ : bytes) (content : str) : Prop :=
| carries_plain :
    data_ <> [] -> utf8_decode data_ = Some content -> carries data_ content
| carries_gzip raw :
    has_magic data_ = true -> gunzip data_ = Ret raw ->
    utf8_decode raw = Some content -> carries data_ content.

(** [line] is one NDJSON line for the record [r]. *)
Definition encodes (line : str) (r : value) : Prop :=
  ~ In NEWLINE line /\ strip line <> [] /\ json_loads (strip line) = Ret r.

(** The request shows the configured token: in the Authorization header,
    or somewhere inside the token query parameter. *)
Definition presents_token (req : request) : Prop :=
  get_or (authorization req) [] = lit "Bearer " ++ AUTH_TOKEN
  \/ str_in AUTH_TOKEN (get_or (token_arg req) []) = true.

(** The nanoseconds [ts_ns_of] reads off a timestamp field, when it does:
    the field is a non-empty string, [fromisoformat] takes it once every Z
    is written +00:00, and the seconds since the epoch, scaled by [1e9],
    are a finite [float]. *)
Definition parsed_ns (field : value) : option Z :=
  match field with
  | VStr s =>
      if empty s then None
      else
        match fromisoformat (replace 90%N (lit "+00:00") s) with
        | Some dt =>
            match (match utcoffset dt with
                   | Some off => Some (true_div (epoch_microseconds dt off) 1000000)
                   | None => naive_timestamp dt
                   end) with
            | Some t => int_of_float (float_mul t f1e9)
            | None => None
            end
        | None => None
        end
  | _ => None
  end.

(** The state after one more clock read. *)
Definition tick (st : state) : state := mk_state (S (ticks st)) (trace st).


(** The URL of the push endpoint. *)
Definition push_url : str := LOKI_URL ++ lit "/loki/api/v1/push".

End Vocabulary.

(* ===================================================================== *)
(** ** Sample requests                                                    *)
(* ===================================================================== *)

Module Sample.

Definition addr : str := lit "203.0.113.7".

(** A POST without credentials. *)
Definition post (d : bytes) : request := mk_request POST None None d addr.

(** One byte that is neither gzip nor UTF-8. *)
Definition junk : request := post [xff].

(** The validation probe, gzipped as Cloudflare sends it. *)
Definition probe_gz : request := post (Ref.store (ascii_bytes PROBE)).

(** A request that shows the wrong token. *)
Definition wrong_bearer : request :=
  mk_request POST (Some (lit "Bearer wrong")) None (ascii_bytes PROBE) addr.

Definition line_a : str :=
  lit "{" ++ quoted "ClientRequestHost" ++ lit ":" ++ quoted "example.com"
  ++ lit "," ++ quoted "EdgeStartTimestamp" ++ lit ":" ++ quoted "2024-01-01T00:00:00Z"
  ++ lit "}".

Definition line_b : str :=
  lit "{" ++ quoted "ClientRequestHost" ++ lit ":" ++ quoted "example.org"
  ++ lit "," ++ quoted "EdgeResponseStatus" ++ lit ":200}".

Definition record_a : value :=
  VDict [(lit "ClientRequestHost", VStr (lit "example.com"));
         (lit "EdgeStartTimestamp", VStr (lit "2024-01-01T00:00:00Z"))].

Definition record_b : value :=
  VDict [(lit "ClientRequestHost", VStr (lit "example.org"));
         (lit "EdgeResponseStatus", VInt 200)].

(** Two records as NDJSON, in UTF-8. *)
Definition batch_raw : bytes := ascii_bytes (ndjson [line_a; line_b]).

(** The same, gzipped. *)
Definition batch_gz : bytes := Ref.store batch_raw.

(** A blank line and a line that is no JSON. *)
Definition no_record : request :=
  post (ascii_bytes (lit "  " ++ [NEWLINE] ++ lit "not json" ++ [NEWLINE])).

(** A batch whose first record is the number 1. *)
Definition number_first : request :=
  post (ascii_bytes (lit "1" ++ [NEWLINE] ++ line_a ++ [NEWLINE])).

(** A record whose timestamp has a microsecond. *)
Definition record_us : value :=
  VDict [(lit "EdgeStartTimestamp", VStr (lit "2024-01-01T00:00:00.000001Z"))].



(** The two records, gzipped twice. *)
Definition twice_gz : request := post (Ref.store batch_gz).


(** An integer of 5000 digits. *)
Definition long_integer : str := repeat 49%N 5000.


(** A blank line, a line that is no JSON, a record. *)
Definition one_of_three : str :=
  lit "  " ++ [NEWLINE] ++ lit "not json" ++ [NEWLINE] ++ line_a ++ [NEWLINE].

(** A HEAD request: it carries no body. *)
Definition head : request := mk_request HEAD None None [] addr.

End Sample.

(* ===================================================================== *)
(** ** More vocabulary: timestamps in order, line endings, pushes         *)
(* ===================================================================== *)

(** The text with every newline written as carriage return, newline. *)
Definition crlf (text : str) : str :=
  flat_map (fun c => if N.eqb c NEWLINE then [13%N; NEWLINE] else [c]) text.

Section MoreVocabulary.
Context {L : PyLib} {W : World} {C : Config}.

(** The nanoseconds a record's own timestamp field gives, when it does. *)
Definition field_ns (log : value) : option Z :=
  match log with
  | VDict d =>
      match dict_get d (lit "EdgeStartTimestamp") with
      | Some field => parsed_ns field
      | None => None
      end
  | _ => None
  end.

(** The values of a batch when the clock has been read [n] times: a
    record with a timestamp of its own keeps it, every other record takes
    the next reading of the clock. *)
Fixpoint stamps (n : nat) (logs : list value) : list value :=
  match logs with
  | [] => []
  | log :: rest =>
      match field_ns log with
      | Some ns => VList [VStr (str_of_int ns); VStr (json_dumps log)] :: stamps n rest
      | None =>
          VList [VStr (str_of_int (time_ns n)); VStr (json_dumps log)] :: stamps (S n) rest
      end
  end.

(** How many records of a batch need the clock. *)
Definition clock_reads (logs : list value) : nat :=
  List.length (filter (fun log => match field_ns log with
                                  | Some _ => false
                                  | None => true
                                  end) logs).

(** Events that are log records, or calls of the one push endpoint with
    a JSON content type and a timeout of 30 seconds. *)
Definition well_pushed (evs : list event) : Prop :=
  Forall (fun ev => match ev with
                    | Logged _ _ => True
                    | Posted url _ content_type timeout =>
                        url = push_url /\ content_type = lit "application/json"
                        /\ timeout = 30
                    end) evs.

(** The labels of the smoke test. *)
Definition test_labels : value :=
  VDict [(lit "job", VStr (lit "cloudflare")); (lit "source", VStr (lit "test"))].

End MoreVocabulary.

(* ===================================================================== *)
(** ** Strings: trimming and splitting                                    *)
(* ===================================================================== *)

Lemma split_cons sep s : exists l ls, split sep s = l :: ls.
Proof.
  induction s as [|c s IH]; simpl; eauto.
  destruct (N.eqb c sep); eauto.
  destruct IH as (l & ls & ->); eauto.
Qed.

Lemma split_app sep a b :
  split sep (a ++ b) =
  removelast (split sep a) ++ (last (split sep a) [] ++ hd [] (split sep b)) :: tl (split sep b).
Proof.
  induction a as [|c a IH].
  - simpl. destruct (split_cons sep b) as (l & ls & ->). reflexivity.
  - cbn [app split]. rewrite IH. clear IH.
    destruct (split_cons sep a) as (l & ls & E). rewrite E.
    destruct (N.eqb c sep).
    + reflexivity.
    + destruct ls as [|x xs]; reflexivity.
Qed.

Lemma lstrip_blank w : blank w = true -> lstrip w = [].
Proof.
  induction w as [|c w IH]; simpl; auto.
  intros H. apply andb_true_iff in H as [Hc Hw]. rewrite Hc. auto.
Qed.

Lemma lstrip_app_blank w x : blank w = true -> lstrip (w ++ x) = lstrip x.
Proof.
  induction w as [|c w IH]; simpl; auto.
  intros H. apply andb_true_iff in H as [Hc Hw]. rewrite Hc. auto.
Qed.

Lemma lstrip_decomp s : exists w, blank w = true /\ s = w ++ lstrip s.
Proof.
  induction s as [|c s (w & Hw & E)].
  - exists []. auto.
  - simpl. destruct (is_space c) eqn:Hc.
    + exists (c :: w). simpl. rewrite Hc, Hw. split; [reflexivity | congruence].
    + exists []. auto.
Qed.

Lemma blank_rev w : blank (rev w) = blank w.
Proof.
  unfold blank. induction w as [|c w IH]; simpl; auto.
  rewrite forallb_app, IH. simpl. rewrite andb_true_r. apply andb_comm.
Qed.

Lemma rstrip_decomp s : exists w, blank w = true /\ s = rstrip s ++ w.
Proof.
  destruct (lstrip_decomp (rev s)) as (w & Hw & E).
  exists (rev w). split.
  - now rewrite blank_rev.
  - unfold rstrip. rewrite <- rev_app_distr, <- E. now rewrite rev_involutive.
Qed.

Lemma rstrip_app_blank y w : blank w = true -> rstrip (y ++ w) = rstrip y.
Proof.
  intros H. unfold rstrip. rewrite rev_app_distr, lstrip_app_blank; auto.
  now rewrite blank_rev.
Qed.

Lemma strip_cons_space c l : is_space c = true -> strip (c :: l) = strip l.
Proof. intros H. unfold strip. simpl. now rewrite H. Qed.

Lemma strip_blank w : blank w = true -> strip w = [].
Proof. intros H. unfold strip. now rewrite lstrip_blank. Qed.

Lemma strip_app_blank x w : blank w = true -> strip (x ++ w) = strip x.
Proof.
  intros H. induction x as [|c x IH].
  - simpl. rewrite strip_blank; auto.
  - destruct (is_space c) eqn:Hc.
    + cbn [app]. now rewrite !strip_cons_space.
    + unfold strip. cbn [app lstrip]. rewrite Hc.
      change (c :: x ++ w) with ((c :: x) ++ w). now apply rstrip_app_blank.
Qed.

Lemma newline_is_space : is_space NEWLINE = true.
Proof. reflexivity. Qed.

Lemma split_blank sep w :
  blank w = true -> Forall (fun l => blank l = true) (split sep w).
Proof.
  induction w as [|c w IH]; simpl; intros H.
  - repeat constructor.
  - apply andb_true_iff in H as [Hc Hw]. specialize (IH Hw).
    destruct (N.eqb c sep).
    + constructor; auto.
    + destruct (split sep w) as [|l ls]; [repeat constructor; simpl; now rewrite Hc|].
      inversion IH; subst. constructor; auto. simpl. now rewrite Hc.
Qed.

Lemma lines_of_blank_lines ls :
  Forall (fun l => blank l = true) ls ->
  filter (fun l => negb (empty l)) (map strip ls) = [].
Proof.
  induction 1 as [|l ls Hl _ IH]; simpl; auto.
  rewrite strip_blank; auto.
Qed.

Lemma lines_of_lstrip s : lines_of (lstrip s) = lines_of s.
Proof.
  induction s as [|c s IH]; auto.
  simpl. destruct (is_space c) eqn:Hc; auto.
  rewrite IH. unfold lines_of. cbn [split].
  destruct (N.eqb c NEWLINE).
  - reflexivity.
  - destruct (split_cons NEWLINE s) as (l & ls & ->).
    cbn [map]. now rewrite strip_cons_space.
Qed.

Lemma lines_of_app_blank t w : blank w = true -> lines_of (t ++ w) = lines_of t.
Proof.
  intros H. unfold lines_of. rewrite split_app.
  destruct (split_cons NEWLINE w) as (l & ls & E).
  pose proof (split_blank NEWLINE w H) as F. rewrite E in F.
  apply Forall_cons_iff in F as [Hl Hls]. rewrite E.
  cbn [hd tl]. rewrite map_app, filter_app. cbn [map filter].
  rewrite (strip_app_blank _ l Hl).
  rewrite (lines_of_blank_lines ls Hls).
  destruct (split_cons NEWLINE t) as (l0 & ls0 & E0).
  assert (N : split NEWLINE t <> []) by (rewrite E0; discriminate).
  pose proof (app_removelast_last [] N) as D.
  set (front := removelast (split NEWLINE t)) in *.
  set (back := last (split NEWLINE t) []) in *.
  rewrite D, map_app, filter_app. reflexivity.
Qed.

Lemma lines_of_rstrip s : lines_of (rstrip s) = lines_of s.
Proof.
  destruct (rstrip_decomp s) as (w & Hw & E).
  rewrite E at 2. symmetry. now apply lines_of_app_blank.
Qed.

Lemma lines_of_strip s : lines_of (strip s) = lines_of s.
Proof. unfold strip. now rewrite lines_of_rstrip, lines_of_lstrip. Qed.

(* ===================================================================== *)
(** ** The monad, and the NDJSON parser                                   *)
(* ===================================================================== *)

Lemma add_events_nil st : add_events st [] = st.
Proof. destruct st. unfold add_events. simpl. now rewrite app_nil_r. Qed.

Lemma add_events_app st a b : add_events (add_events st a) b = add_events st (a ++ b).
Proof. unfold add_events. simpl. now rewrite app_assoc. Qed.

Lemma bind_run {A B} (m : M A) (k : A -> M B) st :
  bind m k st = match m st with
                | (Ret a, st') => k a st'
                | (Raise e, st') => (Raise e, st')
                end.
Proof. reflexivity. Qed.

Lemma posted_app a b : posted (a ++ b) = posted a ++ posted b.
Proof. unfold posted. apply flat_map_app. Qed.

Section ParserFacts.
Context {L : PyLib}.

Lemma parse_lines_spec lines : forall logs st,
  parse_lines lines logs st =
  (match records_of (filter (fun l => negb (empty l)) (map strip lines)) with
   | Ret vs => Ret (logs ++ vs)
   | Raise e => Raise e
   end,
   add_events st (warnings_of (filter (fun l => negb (empty l)) (map strip lines)))).
Proof.
  induction lines as [|line rest IH]; intros logs st.
  - simpl. unfold ret. now rewrite app_nil_r, add_events_nil.
  - cbn [parse_lines map filter].
    destruct (empty (strip line)) eqn:E; cbn [negb].
    + apply IH.
    + cbn [records_of warnings_of].
      destruct (json_loads (strip line)) as [v|e] eqn:J.
      * rewrite IH.
        destruct (records_of _) as [vs|e]; [|reflexivity].
        now rewrite <- app_assoc.
      * destruct e; try (unfold raise; now rewrite add_events_nil).
        unfold bind, log, emit. rewrite IH.
        now rewrite add_events_app.
Qed.

Lemma parse_ndjson_spec content st :
  parse_ndjson content st =
  (parse_spec content, add_events st (warnings_of (lines_of content))).
Proof.
  unfold parse_ndjson. rewrite parse_lines_spec.
  fold (lines_of (strip content)). rewrite lines_of_strip.
  unfold parse_spec. now destruct (records_of (lines_of content)).
Qed.




End ParserFacts.

(* ===================================================================== *)
(** ** Decoding the body                                                  *)
(* ===================================================================== *)

Lemma str_eqb_eq a b : str_eqb a b = true <-> a = b.
Proof.
  revert b. induction a as [|x a IH]; intros [|y b]; simpl; split;
    try discriminate; try reflexivity.
  - intros H. apply andb_true_iff in H as [H1 H2].
    apply N.eqb_eq in H1. apply IH in H2. congruence.
  - intros H. injection H as -> ->. rewrite N.eqb_refl. now apply IH.
Qed.

Lemma str_eqb_neq a b : str_eqb a b = false <-> a <> b.
Proof.
  rewrite <- str_eqb_eq. destruct (str_eqb a b); split; congruence.
Qed.

Lemma has_magic_shape d :
  has_magic d = true -> exists r, d = x1f :: x8b :: r.
Proof.
  destruct d as [|b0 [|b1 r]]; try discriminate. simpl.
  intros H. apply andb_true_iff in H as [H0 H1].
  apply Byte.byte_dec_bl in H0, H1. subst. eauto.
Qed.

(** No UTF-8 text starts with the gzip magic number: 8b is no lead byte. *)
Lemma utf8_no_magic d : has_magic d = true -> utf8_decode d = None.
Proof. intros H. destruct (has_magic_shape d H) as (r & ->). reflexivity. Qed.

Section DecodeFacts.
Context {L : PyLib}.

Lemma decode_body_plain d content st :
  d <> [] -> utf8_decode d = Some content ->
  decode_body d st = (Ret content, st).
Proof.
  intros Hne Hd.
  assert (Hm : has_magic d = false).
  { destruct (has_magic d) eqn:E; auto. rewrite (utf8_no_magic d E) in Hd. discriminate. }
  unfold decode_body, try_except, bind, gzip_decompress.
  destruct d as [|b r]; [congruence|].
  rewrite Hm. unfold raise, decode. now rewrite Hd.
Qed.

Lemma decode_body_gzip d raw content st :
  has_magic d = true -> gunzip d = Ret raw -> utf8_decode raw = Some content ->
  decode_body d st = (Ret content, st).
Proof.
  intros Hm Hg Hd.
  unfold decode_body, try_except, bind, gzip_decompress.
  destruct d as [|b r]; [discriminate|].
  rewrite Hm. unfold lift. rewrite Hg. unfold decode. now rewrite Hd.
Qed.

Lemma decode_body_carries d content st :
  carries d content -> decode_body d st = (Ret content, st).
Proof.
  intros [Hne Hd | raw Hm Hg Hd].
  - now apply decode_body_plain.
  - now apply decode_body_gzip with raw.
Qed.

(** What the decoding stage can do: return the text, or raise
    [UnicodeDecodeError]; it logs at most one warning and pushes nothing. *)
Lemma decode_body_cases d st :
  exists evs,
    posted evs = [] /\
    ((exists content, decode_body d st = (Ret content, add_events st evs))
     \/ decode_body d st = (Raise UnicodeDecodeError, add_events st evs)).
Proof.
  unfold decode_body, try_except, bind, gzip_decompress, decode.
  destruct d as [|b r].
  - exists []. split; auto. left. exists []. simpl. now rewrite add_events_nil.
  - set (d := b :: r). destruct (has_magic d) eqn:Hm.
    + rewrite (utf8_no_magic d Hm). unfold lift.
      destruct (gunzip d) as [raw|e] eqn:Hg.
      * destruct (utf8_decode raw) as [c|] eqn:Hd.
        -- exists []. split; auto. left. exists c. unfold ret. now rewrite add_events_nil.
        -- exists [Logged WARNING (DecompressionFailed UnicodeDecodeError)].
           split; auto.
      * destruct e;
          try (eexists [Logged WARNING (DecompressionFailed _)];
               split; [reflexivity|now right]).
        exists []. split; auto. right. unfold raise. now rewrite add_events_nil.
    + unfold raise. cbn match.
      destruct (utf8_decode d) as [c|] eqn:Hd.
      * exists []. split; auto. left. exists c. unfold ret. now rewrite add_events_nil.
      * exists []. split; auto. right. now rewrite add_events_nil.
Qed.

(** Every text the decoding stage returns for a non-empty body is
    carried by it, plain or gzipped. *)
Lemma decode_body_returns d content st st1 :
  d <> [] -> decode_body d st = (Ret content, st1) -> carries d content.
Proof.
  intros Hne. unfold decode_body, try_except, bind, gzip_decompress, decode.
  destruct d as [|b r]; [congruence|].
  set (d := b :: r). destruct (has_magic d) eqn:Hm.
  - rewrite (utf8_no_magic d Hm). unfold lift.
    destruct (gunzip d) as [raw|e] eqn:Hg.
    + destruct (utf8_decode raw) as [c|] eqn:Hd.
      * intros H. injection H as <- _. now apply carries_gzip with raw.
      * discriminate.
    + destruct e; discriminate.
  - unfold raise. cbn match.
    destruct (utf8_decode d) as [c|] eqn:Hd; [|discriminate].
    intros H. injection H as <- _. now apply carries_plain.
Qed.

(** Why the decoding stage raises: the body has no gzip magic and is not
    UTF-8, or it has the magic and does not inflate to UTF-8 -- the raw
    bytes, tried last, never are. *)
Lemma decode_body_raises d e st st1 :
  d <> [] -> decode_body d st = (Raise e, st1) ->
  (has_magic d = false /\ utf8_decode d = None)
  \/ (has_magic d = true
      /\ forall raw, gunzip d = Ret raw -> utf8_decode raw = None).
Proof.
  intros Hne H.
  destruct (has_magic d) eqn:Hm.
  - right. split; auto. intros raw Hg.
    destruct (utf8_decode raw) as [c|] eqn:Hd; auto.
    rewrite (decode_body_gzip d raw c st Hm Hg Hd) in H. discriminate.
  - left. split; auto.
    destruct (utf8_decode d) as [c|] eqn:Hd; auto.
    rewrite (decode_body_plain d c st Hne Hd) in H. discriminate.
Qed.

End DecodeFacts.

(* ===================================================================== *)
(** ** The request handler, stage by stage                                *)
(* ===================================================================== *)

Section HandlerFacts.
Context {L : PyLib} {W : World} {C : Config}.

(** Every method but [GET] takes the branch behind line 102. *)
Lemma receive_logs_not_get req st :
  method req <> GET ->
  receive_logs req st =
  if unauthorized req
  then (Ret (error_body (lit "Unauthorized"), 401),
        add_events st [Logged WARNING (UnauthorizedRequest (remote_addr req))])
  else process req st.
Proof.
  intros Hm. unfold receive_logs.
  destruct (method req); [congruence| |]; now destruct (unauthorized req).
Qed.

Lemma receive_logs_post req st :
  method req = POST -> unauthorized req = false ->
  receive_logs req st = process req st.
Proof. intros Hm Ha. unfold receive_logs. now rewrite Hm, Ha. Qed.

Lemma receive_logs_denied req st :
  method req = POST -> unauthorized req = true ->
  receive_logs req st =
  (Ret (error_body (lit "Unauthorized"), 401),
   add_events st [Logged WARNING (UnauthorizedRequest (remote_addr req))]).
Proof. intros Hm Ha. unfold receive_logs. now rewrite Hm, Ha. Qed.

Lemma process_undecodable req st e st1 :
  data req <> [] ->
  decode_body (data req) st = (Raise e, st1) ->
  process req st =
  (Ret (error_body (exn_str e), 500), add_events st1 [Logged ERROR (ProcessingError e)]).
Proof.
  intros Hne Hd. unfold process, try_except.
  destruct (data req) as [|b r] eqn:E; [congruence|].
  unfold bind at 1. rewrite Hd. reflexivity.
Qed.

Lemma process_decoded req st content st1 :
  data req <> [] ->
  decode_body (data req) st = (Ret content, st1) ->
  process req st =
  if str_in PROBE content
  then (Ret (SUCCESS, 200), add_events st1 [Logged INFO ValidationRequest])
  else match parse_spec content with
       | Ret logs =>
           try_except (handle_batch logs)
             (fun e => Some (internal_error e))
             (add_events st1 (warnings_of (lines_of content)))
       | Raise e =>
           internal_error e (add_events st1 (warnings_of (lines_of content)))
       end.
Proof.
  intros Hne Hd. unfold process.
  destruct (data req) as [|b r] eqn:E; [congruence|].
  unfold try_except at 1. unfold bind at 1. rewrite Hd.
  destruct (str_in PROBE content).
  - reflexivity.
  - unfold bind at 1. rewrite parse_ndjson_spec.
    now destruct (parse_spec content).
Qed.


(** C4: a POST body, gzipped or plain, whose text contains the probe
    literal is answered 200 with the fixed acknowledgment, at once: the
    only effect is the information log -- no line is parsed, nothing is
    pushed. *)
Theorem probe_short_circuit (req : request) (content : str) (st : state) :
  method req = POST ->
  unauthorized req = false ->
  carries (data req) content ->
  str_in PROBE content = true ->
  receive_logs req st =
    (Ret (VDict [(lit "text", VStr (lit "Success")); (lit "code", VInt 0)], 200),
     add_events st [Logged INFO ValidationRequest]).
Proof.
  intros Hm Ha Hc Hp.
  rewrite receive_logs_post by assumption.
  assert (Hne : data req <> []).
  { destruct Hc as [Hne _ | raw Hmg _ _]; auto.
    intros E. rewrite E in Hmg. discriminate. }
  rewrite (process_decoded req st content st Hne (decode_body_carries _ _ _ Hc)).
  now rewrite Hp.
Qed.

(** C1, as the code has it: a POST that passes the token check and whose
    non-empty body cannot be decoded (it has no gzip magic and is not
    UTF-8, or has the magic and does not inflate to UTF-8) is answered by
    the top-level handler with status 500 (not 400) and the decode
    error's text as the error body; the error is always
    [UnicodeDecodeError], it is logged, and nothing is pushed. *)
Theorem undecodable_body_is_500 (req : request) (st st1 : state) (e : exn) :
  method req = POST ->
  unauthorized req = false ->
  data req <> [] ->
  decode_body (data req) st = (Raise e, st1) ->
  receive_logs req st =
    (Ret (error_body (exn_str e), 500),
     add_events st1 [Logged ERROR (ProcessingError e)])
  /\ ((has_magic (data req) = false /\ utf8_decode (data req) = None)
      \/ (has_magic (data req) = true
          /\ forall raw, gunzip (data req) = Ret raw -> utf8_decode raw = None))
  /\ e = UnicodeDecodeError
  /\ posted (trace st1) = posted (trace st).
Proof.
  intros Hm Ha Hne Hd.
  rewrite receive_logs_post by assumption.
  rewrite (process_undecodable req st e st1 Hne Hd).
  split; [reflexivity|].
  split; [exact (decode_body_raises _ _ _ _ Hne Hd)|].
  destruct (decode_body_cases (data req) st) as (evs & Hp & [(c & Hc) | Hr]);
    rewrite Hd in *.
  - discriminate.
  - injection Hr as -> ->. split; auto.
    unfold add_events. simpl. rewrite posted_app, Hp. apply app_nil_r.
Qed.

End HandlerFacts.

(* ===================================================================== *)
(** ** Authentication                                                     *)
(* ===================================================================== *)

Section AuthFacts.
Context {L : PyLib} {W : World} {C : Config}.

Lemma handle_batch_status logs st r st' :
  handle_batch logs st = (Ret r, st') -> status r = 200 \/ status r = 500.
Proof.
  unfold handle_batch. destruct logs as [|sample_log rest].
  - unfold bind, log, emit, ret. intros H. injection H as <- _. now left.
  - unfold bind at 1. destruct (derive_labels sample_log st) as [[labels|e] s1];
      [|discriminate].
    unfold bind at 1.
    destruct (push_to_loki (sample_log :: rest) (Some labels) s1) as [[[|]|e] s2];
      [| |discriminate].
    + unfold bind, log, emit, ret. intros H. injection H as <- _. now left.
    + unfold ret. intros H. injection H as <- _. now right.
Qed.

(** The pipeline behind the token check always answers, and never 401. *)
Lemma process_answers req st :
  exists r st', process req st = (Ret r, st')
                /\ (status r = 200 \/ status r = 400 \/ status r = 500).
Proof.
  destruct (data req) as [|b d] eqn:E.
  - unfold process, try_except. rewrite E.
    unfold bind, log, emit, ret. eexists _, _. split; [reflexivity|]. right. now left.
  - assert (Hne : data req <> []) by (rewrite E; discriminate).
    destruct (decode_body (data req) st) as [[content|e] st1] eqn:Hd.
    + rewrite (process_decoded req st content st1 Hne Hd).
      destruct (str_in PROBE content).
      * eexists _, _. split; [reflexivity|]. now left.
      * destruct (parse_spec content) as [logs|e0].
        -- unfold try_except.
           destruct (handle_batch logs _) as [[r|e] s2] eqn:Hb.
           ++ eexists _, _. split; [reflexivity|].
              destruct (handle_batch_status _ _ _ _ Hb); auto.
           ++ unfold internal_error, bind, log, emit, ret.
              eexists _, _. split; [reflexivity|]. right. now right.
        -- unfold internal_error, bind, log, emit, ret.
           eexists _, _. split; [reflexivity|]. right. now right.
    + rewrite (process_undecodable req st e st1 Hne Hd).
      eexists _, _. split; [reflexivity|]. right. now right.
Qed.

Lemma unauthorized_iff req :
  unauthorized req = true <-> (AUTH_TOKEN <> lit "changeme" /\ ~ presents_token req).
Proof.
  unfold unauthorized, presents_token.
  rewrite !andb_true_iff, !negb_true_iff, !str_eqb_neq.
  split.
  - intros (H1 & H2 & H3). split; auto. intros [E|E]; congruence.
  - intros (H1 & H2). repeat split; auto.
    destruct (str_in AUTH_TOKEN (get_or (token_arg req) [])); auto.
    exfalso. apply H2. now right.
Qed.

(** C2: with a configured token other than [changeme], a POST is rejected
    with 401 -- the warning is its only effect, so nothing is decoded,
    parsed or pushed -- unless the Authorization header is exactly
    [Bearer <token>] or the token occurs inside the [token] query
    parameter; in that case, and always when the token is [changeme]
    (whatever the headers, also with none), the request goes on to the
    pipeline, which never answers 401. *)
Theorem token_check (req : request) (st : state) :
  method req = POST ->
  (AUTH_TOKEN <> lit "changeme" -> ~ presents_token req ->
   receive_logs req st =
     (Ret (error_body (lit "Unauthorized"), 401),
      add_events st [Logged WARNING (UnauthorizedRequest (remote_addr req))]))
  /\ (AUTH_TOKEN = lit "changeme" \/ presents_token req ->
      receive_logs req st = process req st
      /\ exists r st', receive_logs req st = (Ret r, st') /\ status r <> 401).
Proof.
  intros Hm. split.
  - intros Ht Hp. apply receive_logs_denied; auto.
    apply unauthorized_iff. now split.
  - intros H.
    assert (Ha : unauthorized req = false).
    { destruct (unauthorized req) eqn:E; auto.
      apply unauthorized_iff in E as [Ht Hp]. destruct H; contradiction. }
    rewrite receive_logs_post by assumption. split; auto.
    destruct (process_answers req st) as (r & st' & -> & Hs).
    exists r, st'. split; auto. lia.
Qed.

End AuthFacts.

(* ===================================================================== *)
(** ** Timestamps                                                         *)
(* ===================================================================== *)

Section TimestampFacts.
Context {L : PyLib} {W : World}.

(** The timestamp of an object record: what the field parses to, or one
    clock read. *)
Lemma ts_ns_of_dict d st :
  ts_ns_of (VDict d) st =
  match (match dict_get d (lit "EdgeStartTimestamp") with
         | Some field => parsed_ns field
         | None => None
         end) with
  | Some n => (Ret (str_of_int n), st)
  | None => (Ret (str_of_int (time_ns (ticks st))), tick st)
  end.
Proof.
  unfold ts_ns_of, get. unfold bind at 1. unfold ret at 1.
  destruct (dict_get d (lit "EdgeStartTimestamp")) as [field|]; [|reflexivity].
  destruct field as [|b|z|f|s|l|m]; cbn [truthy parsed_ns];
    try reflexivity;
    try (match goal with |- context [if ?c then _ else _] => destruct c end; reflexivity).
  destruct s as [|c s]; [reflexivity|]. cbn [empty].
  unfold try_except.
  destruct (fromisoformat (replace 90%N (lit "+00:00") (c :: s))) as [dt|];
    [|reflexivity].
  unfold bind at 1. unfold timestamp.
  destruct (utcoffset dt) as [off|].
  - unfold ret at 1. unfold bind at 1. unfold py_int.
    destruct (int_of_float _); reflexivity.
  - destruct (naive_timestamp dt) as [t|]; [|reflexivity].
    unfold ret at 1. unfold bind at 1. unfold py_int.
    destruct (int_of_float _); reflexivity.
Qed.

Lemma ts_ns_of_dict_returns d st :
  exists ts n, ts_ns_of (VDict d) st = (Ret ts, mk_state n (trace st)).
Proof.
  rewrite ts_ns_of_dict.
  destruct (match dict_get d (lit "EdgeStartTimestamp") with
            | Some field => parsed_ns field
            | None => None
            end).
  - destruct st. eexists _, _. reflexivity.
  - eexists _, _. reflexivity.
Qed.

Lemma ts_ns_of_not_dict v st :
  is_dict v = false -> ts_ns_of v st = (Raise AttributeError, st).
Proof. destruct v; try discriminate; reflexivity. Qed.

End TimestampFacts.

Section TimestampClaim.
Context {L : PyLib} {W : World}.

Lemma replace_example :
  replace 90%N (lit "+00:00") (lit "2024-01-01T00:00:00Z") = lit "2024-01-01T00:00:00+00:00".
Proof. reflexivity. Qed.

(** C6, as the code computes it.  For an object record: when the
    timestamp field is absent, is no string, is the empty string, or is a
    string [fromisoformat] refuses (every Z first written +00:00), the
    timestamp is the decimal string of one reading of the clock in
    nanoseconds.  When it parses to an offset-aware [datetime], the
    timestamp is the decimal string of [int(t * 1e9)], where [t] is the
    binary64 quotient of the microseconds since the epoch by [10**6]: for
    ["2024-01-01T00:00:00Z"] exactly ["1704067200000000000"]; with a
    fraction of a second the product is rounded and need not be the exact
    count of nanoseconds. *)
Theorem timestamp_contract (d : list (str * value)) (st : state) :
  let field := dict_get d (lit "EdgeStartTimestamp") in
  let clock := (Ret (str_of_int (time_ns (ticks st))), tick st) in
  (field = None -> ts_ns_of (VDict d) st = clock)
  /\ (forall v, field = Some v -> (forall s, v <> VStr s) ->
      ts_ns_of (VDict d) st = clock)
  /\ (field = Some (VStr []) -> ts_ns_of (VDict d) st = clock)
  /\ (forall s, field = Some (VStr s) ->
      fromisoformat (replace 90%N (lit "+00:00") s) = None ->
      ts_ns_of (VDict d) st = clock)
  /\ (forall s dt off n, field = Some (VStr s) -> s <> [] ->
      fromisoformat (replace 90%N (lit "+00:00") s) = Some dt ->
      utcoffset dt = Some off ->
      int_of_float (float_mul (true_div (epoch_microseconds dt off) 1000000) f1e9) = Some n ->
      ts_ns_of (VDict d) st = (Ret (str_of_int n), st))
  /\ (field = Some (VStr (lit "2024-01-01T00:00:00Z")) ->
      fromisoformat (lit "2024-01-01T00:00:00+00:00")
        = Some (mk_datetime 2024 1 1 0 0 0 0 (Some 0)) ->
      ts_ns_of (VDict d) st = (Ret (lit "1704067200000000000"), st)).
Proof.
  intros field clock. subst field clock.
  repeat split.
  - intros H. now rewrite ts_ns_of_dict, H.
  - intros v H Hv. rewrite ts_ns_of_dict, H.
    destruct v; try reflexivity. now destruct (Hv s).
  - intros H. now rewrite ts_ns_of_dict, H.
  - intros s H Hf. rewrite ts_ns_of_dict, H. cbn [parsed_ns].
    rewrite Hf. now destruct (empty s).
  - intros s dt off n H Hs Hf Ho Hn. rewrite ts_ns_of_dict, H. cbn [parsed_ns].
    destruct s; [congruence|]. cbn [empty]. now rewrite Hf, Ho, Hn.
  - intros H Hf. rewrite ts_ns_of_dict, H. cbn [parsed_ns].
    rewrite replace_example, Hf. reflexivity.
Qed.

End TimestampClaim.

(* ===================================================================== *)
(** ** Labels and the push                                                *)
(* ===================================================================== *)

Section PushFacts.
Context {L : PyLib} {W : World} {C : Config}.


Lemma build_values_not_dict log rest values st :
  is_dict log = false ->
  build_values (log :: rest) values st = (Raise AttributeError, st).
Proof.
  intros H. cbn [build_values]. unfold bind. now rewrite ts_ns_of_not_dict.
Qed.

Lemma push_to_loki_empty labels st : push_to_loki [] labels st = (Ret true, st).
Proof. reflexivity. Qed.


Lemma derive_labels_dict d st :
  derive_labels (VDict d) st = (Ret (VDict (labels_of d)), st).
Proof.
  unfold derive_labels, contains, getitem, labels_of, dict_has.
  unfold bind at 1. unfold ret at 1.
  destruct (dict_get d (lit "ClientRequestHost")) as [h|]; reflexivity.
Qed.

Lemma derive_labels_scalar v st :
  scalar v = true -> derive_labels v st = (Raise TypeError, st).
Proof. destruct v; try discriminate; reflexivity. Qed.

Lemma handle_batch_scalar v rest st :
  scalar v = true -> handle_batch (v :: rest) st = (Raise TypeError, st).
Proof.
  intros H. unfold handle_batch, bind. now rewrite derive_labels_scalar.
Qed.


End PushFacts.

Section PushClaims.
Context {L : PyLib} {W : World} {C : Config}.






End PushClaims.

(* ===================================================================== *)
(** ** Empty batches and batches the handler cannot label                 *)
(* ===================================================================== *)

Section BatchClaims.
Context {L : PyLib} {W : World} {C : Config}.

Lemma posted_warnings lines : posted (warnings_of lines) = [].
Proof.
  induction lines as [|l ls IH]; auto.
  cbn [warnings_of].
  destruct (json_loads l) as [v|e]; auto.
  destruct e; auto.
Qed.

Lemma posted_add_events st evs :
  posted (trace (add_events st evs)) = posted (trace st) ++ posted evs.
Proof. unfold add_events. cbn [trace]. apply posted_app. Qed.

(** Decoding pushes nothing. *)
Lemma decode_body_posted d st r st1 :
  decode_body d st = (r, st1) -> posted (trace st1) = posted (trace st).
Proof.
  intros H.
  destruct (decode_body_cases d st) as (evs & Hp & [(c & Hc) | Hr]);
    rewrite H in *.
  - injection Hc as _ ->. now rewrite posted_add_events, Hp, app_nil_r.
  - injection Hr as _ ->. now rewrite posted_add_events, Hp, app_nil_r.
Qed.

(** A push leaves a trace only for a batch that is not empty. *)
Lemma push_needs_batch logs labels st :
  posted (trace (snd (push_to_loki logs labels st))) <> posted (trace st) ->
  logs <> [].
Proof. destruct logs; [now cbn | discriminate]. Qed.

(** Whenever the handler pushes, the body was decoded and its text
    parsed to a batch that is not empty. *)
Lemma receive_logs_push_needs_batch req st :
  posted (trace (snd (receive_logs req st))) <> posted (trace st) ->
  exists content st1 logs,
    decode_body (data req) st = (Ret content, st1)
    /\ parse_spec content = Ret logs /\ logs <> [].
Proof.
  assert (Hm : method req = GET \/ method req <> GET)
    by (destruct (method req); [left|right|right]; congruence).
  destruct Hm as [Hm|Hm]; [unfold receive_logs; rewrite Hm; now cbn|].
  rewrite (receive_logs_not_get req st Hm).
  destruct (unauthorized req).
  { cbn [snd].
    rewrite posted_add_events. cbn. rewrite app_nil_r. congruence. }
  destruct (data req) as [|b r] eqn:E.
  { unfold process, try_except. rewrite E.
    unfold bind, log, emit, ret. cbn [snd].
    rewrite posted_add_events. cbn. rewrite app_nil_r. congruence. }
  assert (Hne : data req <> []) by (rewrite E; discriminate).
  rewrite <- E.
  destruct (decode_body (data req) st) as [[content|e] st1] eqn:Hd.
  - pose proof (decode_body_posted _ _ _ _ Hd) as Hp.
    rewrite (process_decoded req st content st1 Hne Hd).
    destruct (str_in PROBE content).
    { cbn [snd]. rewrite posted_add_events. cbn. rewrite app_nil_r. congruence. }
    destruct (parse_spec content) as [logs|e0] eqn:Hps.
    + intros H. exists content, st1, logs. split; auto. split; auto.
      intros N. apply H. rewrite N.
      unfold try_except, handle_batch, bind, log, emit, ret. cbn [snd].
      rewrite add_events_app, posted_add_events, posted_app, posted_warnings.
      cbn. rewrite app_nil_r. congruence.
    + unfold internal_error, bind, log, emit, ret. cbn [snd].
      rewrite add_events_app, posted_add_events, posted_app, posted_warnings.
      cbn. rewrite app_nil_r. congruence.
  - pose proof (decode_body_posted _ _ _ _ Hd) as Hp.
    rewrite (process_undecodable req st e st1 Hne Hd). cbn [snd].
    rewrite posted_add_events. cbn. rewrite app_nil_r. congruence.
Qed.

(** C8: when parsing yields no record the handler answers 200 with
    [{"status": "ok", "processed": 0}] and pushes nothing;
    [push_to_loki] on an empty list returns true and leaves the world as
    it was; so whenever a push is made, by [push_to_loki] or by the
    handler on any request, the batch is not empty. *)
Theorem empty_batch_is_not_forwarded
    (req : request) (content : str) (st st1 : state) :
  method req = POST ->
  unauthorized req = false ->
  data req <> [] ->
  decode_body (data req) st = (Ret content, st1) ->
  str_in PROBE content = false ->
  parse_spec content = Ret [] ->
  receive_logs req st =
    (Ret (VDict [(lit "status", VStr (lit "ok")); (lit "processed", VInt 0)], 200),
     add_events st1 (warnings_of (lines_of content) ++ [Logged INFO NoValidLogs]))
  /\ posted (trace (snd (receive_logs req st))) = posted (trace st)
  /\ (forall labels s, push_to_loki [] labels s = (Ret true, s))
  /\ (forall logs labels s,
        posted (trace (snd (push_to_loki logs labels s))) <> posted (trace s) ->
        logs <> [])
  /\ (forall req' s,
        posted (trace (snd (receive_logs req' s))) <> posted (trace s) ->
        exists content' s1 logs,
          decode_body (data req') s = (Ret content', s1)
          /\ parse_spec content' = Ret logs /\ logs <> []).
Proof.
  intros Hm Ha Hne Hd Hp Hl.
  assert (E : receive_logs req st =
              (Ret (ok_processed 0, 200),
               add_events st1 (warnings_of (lines_of content) ++ [Logged INFO NoValidLogs]))).
  { rewrite receive_logs_post by assumption.
    rewrite (process_decoded req st content st1 Hne Hd), Hp, Hl.
    unfold try_except, handle_batch, bind, log, emit, ret.
    now rewrite add_events_app. }
  split; [exact E|]. split; [|split; [|split]].
  - rewrite E. cbn [snd]. rewrite posted_add_events, posted_app, posted_warnings.
    cbn. rewrite app_nil_r. eapply decode_body_posted; eauto.
  - intros. reflexivity.
  - intros logs labels s. apply push_needs_batch.
  - intros req' s. apply receive_logs_push_needs_batch.
Qed.

(** C10: when the first parsed record is a JSON value that is none of
    object, string and array, the membership test of the label derivation
    raises [TypeError]; the top-level handler answers 500 with the
    error's text, and nothing is pushed -- whether or not the other lines
    parsed. *)
Theorem scalar_first_record_is_500
    (req : request) (content : str) (st st1 : state) (v : value) (rest : list value) :
  method req = POST ->
  unauthorized req = false ->
  data req <> [] ->
  decode_body (data req) st = (Ret content, st1) ->
  str_in PROBE content = false ->
  parse_spec content = Ret (v :: rest) ->
  scalar v = true ->
  (forall s, contains v (lit "ClientRequestHost") s = (Raise TypeError, s))
  /\ receive_logs req st =
       (Ret (error_body (exn_str TypeError), 500),
        add_events st1
          (warnings_of (lines_of content) ++ [Logged ERROR (ProcessingError TypeError)]))
  /\ posted (trace (snd (receive_logs req st))) = posted (trace st).
Proof.
  intros Hm Ha Hne Hd Hp Hl Hs.
  assert (E : receive_logs req st =
              (Ret (error_body (exn_str TypeError), 500),
               add_events st1
                 (warnings_of (lines_of content)
                  ++ [Logged ERROR (ProcessingError TypeError)]))).
  { rewrite receive_logs_post by assumption.
    rewrite (process_decoded req st content st1 Hne Hd), Hp, Hl.
    unfold try_except. rewrite handle_batch_scalar by assumption.
    unfold internal_error, bind, log, emit, ret.
    now rewrite add_events_app. }
  split; [|split].
  - intros s. destruct v; try discriminate; reflexivity.
  - exact E.
  - rewrite E. cbn [snd]. rewrite posted_add_events, posted_app, posted_warnings.
    cbn. rewrite app_nil_r. eapply decode_body_posted; eauto.
Qed.

End BatchClaims.

(* ===================================================================== *)
(** ** Round trip: gzip, NDJSON, and the plain path                       *)
(* ===================================================================== *)

Lemma split_line l r :
  ~ In NEWLINE l -> split NEWLINE (l ++ NEWLINE :: r) = l :: split NEWLINE r.
Proof.
  induction l as [|c l IH]; intros H.
  - reflexivity.
  - cbn [app split].
    destruct (N.eqb c NEWLINE) eqn:E.
    + apply N.eqb_eq in E. exfalso. apply H. now left.
    + rewrite IH; auto. intros N. apply H. now right.
Qed.

Lemma split_ndjson lines :
  Forall (fun l => ~ In NEWLINE l) lines ->
  split NEWLINE (ndjson lines) = lines ++ [[]].
Proof.
  induction 1 as [|l ls Hl _ IH]; [reflexivity|].
  unfold ndjson in *. cbn [flat_map]. rewrite <- app_assoc. cbn [app].
  rewrite split_line by assumption. now rewrite IH.
Qed.

Section RoundTrip.
Context {L : PyLib} {W : World} {C : Config}.

Lemma lines_of_ndjson lines records :
  Forall2 encodes lines records ->
  lines_of (ndjson lines) = map strip lines.
Proof.
  intros H. unfold lines_of. rewrite split_ndjson.
  - rewrite map_app, filter_app. cbn. rewrite app_nil_r.
    induction H as [|l r ls rs (_ & Hs & _) _ IH]; [reflexivity|].
    cbn [map filter]. rewrite IH.
    destruct (strip l); [congruence | reflexivity].
  - induction H as [|l r ls rs (Hn & _) _ IH]; constructor; auto.
Qed.

Lemma records_of_encoded lines records :
  Forall2 encodes lines records ->
  records_of (map strip lines) = Ret records /\ warnings_of (map strip lines) = [].
Proof.
  induction 1 as [|l r ls rs (_ & _ & Hj) _ [IH1 IH2]]; [auto|].
  cbn [map records_of warnings_of]. rewrite Hj, IH1, IH2. auto.
Qed.

Lemma unauthorized_with_data req d : unauthorized (with_data req d) = unauthorized req.
Proof. reflexivity. Qed.

(** C9: for records written one per line as NDJSON and gzip-compressed,
    decoding and then parsing gives the records back, in order, with no
    warning; the same text sent uncompressed decodes to the same text, so
    that (the body not being empty) the handler does the same on both. *)
Theorem gzip_ndjson_roundtrip
    (lines : list str) (records : list value) (body raw : bytes)
    (req : request) (st : state) :
  has_magic body = true ->
  gunzip body = Ret raw ->
  utf8_decode raw = Some (ndjson lines) ->
  Forall2 encodes lines records ->
  (content <- decode_body body ;; parse_ndjson content) st = (Ret records, st)
  /\ decode_body raw st = decode_body body st
  /\ (raw <> [] ->
      receive_logs (with_data req raw) st = receive_logs (with_data req body) st).
Proof.
  intros Hm Hg Hu He.
  assert (Hb : decode_body body st = (Ret (ndjson lines), st))
    by (now apply decode_body_gzip with raw).
  assert (Hr : decode_body raw st = (Ret (ndjson lines), st)).
  { destruct raw as [|b r] eqn:E.
    - cbn in Hu. injection Hu as <-. reflexivity.
    - rewrite <- E in *. apply decode_body_plain; auto. rewrite E. discriminate. }
  split; [|split].
  - rewrite bind_run, Hb, parse_ndjson_spec. unfold parse_spec.
    rewrite (lines_of_ndjson lines records He).
    destruct (records_of_encoded lines records He) as [-> ->].
    now rewrite add_events_nil.
  - now rewrite Hb, Hr.
  - intros Hne.
    assert (Hbne : body <> []) by (intros ->; discriminate).
    assert (P : process (with_data req raw) st = process (with_data req body) st).
    { rewrite (process_decoded (with_data req raw) st (ndjson lines) st Hne Hr).
      rewrite (process_decoded (with_data req body) st (ndjson lines) st Hbne Hb).
      reflexivity. }
    unfold receive_logs. cbn [with_data method].
    rewrite !unauthorized_with_data.
    destruct (method req); [reflexivity| |];
      (destruct (unauthorized req); [reflexivity | exact P]).
Qed.

End RoundTrip.

(* ===================================================================== *)
(** ** The properties on the reference library                            *)
(* ===================================================================== *)

Lemma encodes_check {L : PyLib} line r :
  forallb (fun c => negb (N.eqb c NEWLINE)) line = true ->
  empty (strip line) = false ->
  json_loads (strip line) = Ret r ->
  encodes line r.
Proof.
  intros Hn He Hj. repeat split; auto.
  - intros Hin. rewrite forallb_forall in Hn. specialize (Hn _ Hin).
    now rewrite N.eqb_refl in Hn.
  - intros E. now rewrite E in He.
Qed.

(** [undecodable_body_is_500] on a body of one byte ff. *)
Lemma undecodable_body_is_500_witness :
  receive_logs (L:=Ref.lib) (W:=Ref.world) (C:=Ref.defaults) Sample.junk initial =
    (Ret (error_body (lit "UnicodeDecodeError"), 500),
     add_events initial [Logged ERROR (ProcessingError UnicodeDecodeError)])
  /\ ((has_magic (data Sample.junk) = false /\ utf8_decode (data Sample.junk) = None)
      \/ (has_magic (data Sample.junk) = true
          /\ forall raw, Ref.gunzip (data Sample.junk) = Ret raw -> utf8_decode raw = None))
  /\ UnicodeDecodeError = UnicodeDecodeError
  /\ posted (trace initial) = posted (trace initial).
Proof.
  apply (undecodable_body_is_500 (L:=Ref.lib) (W:=Ref.world) (C:=Ref.defaults)
           Sample.junk initial initial UnicodeDecodeError).
  - reflexivity.
  - reflexivity.
  - discriminate.
  - reflexivity.
Defined.

(** C1 as stated fails: the body [ff] cannot be decoded, and the answer
    is 500, not a 400-class status. *)
Lemma undecodable_body_not_400 :
  decode_body (L:=Ref.lib) (data Sample.junk) initial = (Raise UnicodeDecodeError, initial)
  /\ fst (receive_logs (L:=Ref.lib) (W:=Ref.world) (C:=Ref.defaults) Sample.junk initial)
     = Ret (error_body (lit "UnicodeDecodeError"), 500).
Proof. split; reflexivity. Qed.



(** On that text the parser returns the record and warns about the
    second line. *)
Example parse_one_of_three :
  parse_ndjson (L:=Ref.lib) Sample.one_of_three initial
  = (Ret [Sample.record_a],
     add_events initial [Logged WARNING (ParseFailed (lit "not json"))]).
Proof. vm_compute. reflexivity. Qed.

(** [token_check] on a request with the wrong bearer token. *)
Lemma token_check_witness :
  receive_logs (L:=Ref.lib) (W:=Ref.world) (C:=Ref.secured) Sample.wrong_bearer initial =
    (Ret (error_body (lit "Unauthorized"), 401),
     add_events initial [Logged WARNING (UnauthorizedRequest Sample.addr)]).
Proof.
  apply (proj1 (token_check (L:=Ref.lib) (W:=Ref.world) (C:=Ref.secured)
                  Sample.wrong_bearer initial eq_refl)).
  - discriminate.
  - intros [H|H]; discriminate H.
Defined.

(** [probe_short_circuit] on the gzipped probe. *)
Lemma probe_short_circuit_witness :
  receive_logs (L:=Ref.lib) (W:=Ref.world) (C:=Ref.defaults) Sample.probe_gz initial =
    (Ret (VDict [(lit "text", VStr (lit "Success")); (lit "code", VInt 0)], 200),
     add_events initial [Logged INFO ValidationRequest]).
Proof.
  apply (probe_short_circuit (L:=Ref.lib) (W:=Ref.world) (C:=Ref.defaults)
           Sample.probe_gz PROBE initial).
  - reflexivity.
  - reflexivity.
  - apply (carries_gzip (L:=Ref.lib) _ _ (ascii_bytes PROBE)); vm_compute; reflexivity.
  - vm_compute. reflexivity.
Defined.


(** What the handler pushes for those two records. *)
Example pushed_stream :
  posted (trace (snd (handle_batch (L:=Ref.lib) (W:=Ref.world) (C:=Ref.defaults)
                        [Sample.record_a; Sample.record_b] initial)))
  = [(lit "http://loki:3100/loki/api/v1/push",
      stream_payload
        (VDict [(lit "job", VStr (lit "cloudflare"));
                (lit "source", VStr (lit "logpush"));
                (lit "host", VStr (lit "example.com"))])
        [VList [VStr (lit "1704067200000000000");
                VStr (Ref.json_dumps Sample.record_a)];
         VList [VStr (lit "1700000000000000000");
                VStr (Ref.json_dumps Sample.record_b)]])].
Proof. vm_compute. reflexivity. Qed.


(** [timestamp_contract] on the specification's example, read by the
    reference parser. *)
Lemma timestamp_contract_witness :
  ts_ns_of (L:=Ref.lib) (W:=Ref.world) Sample.record_a initial
  = (Ret (lit "1704067200000000000"), initial).
Proof.
  apply (proj2 (proj2 (proj2 (proj2 (proj2
           (timestamp_contract (L:=Ref.lib) (W:=Ref.world)
              [(lit "ClientRequestHost", VStr (lit "example.com"));
               (lit "EdgeStartTimestamp", VStr (lit "2024-01-01T00:00:00Z"))]
              initial))))));
    reflexivity.
Defined.

(** A record without the field gets the clock's reading. *)
Example timestamp_missing :
  ts_ns_of (L:=Ref.lib) (W:=Ref.world) Sample.record_b initial
  = (Ret (lit "1700000000000000000"), tick initial).
Proof. vm_compute. reflexivity. Qed.

(** C6 as stated fails with a fraction of a second: one microsecond past
    2024-01-01T00:00:00Z is 1704067200000001000 ns since the epoch, and
    the timestamp computed is 1704067200000001024. *)
Lemma fraction_timestamp_is_rounded :
  Ref.fromisoformat (replace 90%N (lit "+00:00") (lit "2024-01-01T00:00:00.000001Z"))
  = Some (mk_datetime 2024 1 1 0 0 0 1 (Some 0))
  /\ epoch_microseconds (mk_datetime 2024 1 1 0 0 0 1 (Some 0)) 0 * 1000
     = 1704067200000001000
  /\ ts_ns_of (L:=Ref.lib) (W:=Ref.world) Sample.record_us initial
     = (Ret (lit "1704067200000001024"), initial).
Proof. repeat split; vm_compute; reflexivity. Qed.


(** A backend that answers 500: the handler answers 500, having pushed
    once and logged the error. *)
Example backend_500 :
  fst (handle_batch (L:=Ref.lib) (W:=Ref.world_answering 500) (C:=Ref.defaults)
         [Sample.record_a] initial)
  = Ret (error_body (lit "Failed to push to Loki"), 500).
Proof. vm_compute. reflexivity. Qed.


(** [empty_batch_is_not_forwarded] on a blank line and a malformed one. *)
Lemma empty_batch_is_not_forwarded_witness :
  let content := lit "  " ++ [NEWLINE] ++ lit "not json" ++ [NEWLINE] in
  receive_logs (L:=Ref.lib) (W:=Ref.world) (C:=Ref.defaults) Sample.no_record initial =
    (Ret (VDict [(lit "status", VStr (lit "ok")); (lit "processed", VInt 0)], 200),
     add_events initial
       (warnings_of (L:=Ref.lib) (lines_of content) ++ [Logged INFO NoValidLogs]))
  /\ posted (trace (snd (receive_logs (L:=Ref.lib) (W:=Ref.world) (C:=Ref.defaults)
                           Sample.no_record initial)))
     = posted (trace initial)
  /\ (forall labels s,
        push_to_loki (L:=Ref.lib) (W:=Ref.world) (C:=Ref.defaults) [] labels s = (Ret true, s))
  /\ (forall logs labels s,
        posted (trace (snd (push_to_loki (L:=Ref.lib) (W:=Ref.world) (C:=Ref.defaults)
                              logs labels s))) <> posted (trace s) ->
        logs <> [])
  /\ (forall req' s,
        posted (trace (snd (receive_logs (L:=Ref.lib) (W:=Ref.world) (C:=Ref.defaults)
                              req' s))) <> posted (trace s) ->
        exists content' s1 logs,
          decode_body (L:=Ref.lib) (data req') s = (Ret content', s1)
          /\ parse_spec (L:=Ref.lib) content' = Ret logs /\ logs <> []).
Proof.
  apply (empty_batch_is_not_forwarded (L:=Ref.lib) (W:=Ref.world) (C:=Ref.defaults)
           Sample.no_record _ initial initial).
  - reflexivity.
  - reflexivity.
  - discriminate.
  - vm_compute. reflexivity.
  - vm_compute. reflexivity.
  - vm_compute. reflexivity.
Defined.

(** [scalar_first_record_is_500] on a batch whose first line is [1]. *)
Lemma scalar_first_record_is_500_witness :
  let content := lit "1" ++ [NEWLINE] ++ Sample.line_a ++ [NEWLINE] in
  (forall s, contains (VInt 1) (lit "ClientRequestHost") s = (Raise TypeError, s))
  /\ receive_logs (L:=Ref.lib) (W:=Ref.world) (C:=Ref.defaults) Sample.number_first initial =
       (Ret (error_body (lit "TypeError"), 500),
        add_events initial
          (warnings_of (L:=Ref.lib) (lines_of content)
           ++ [Logged ERROR (ProcessingError TypeError)]))
  /\ posted (trace (snd (receive_logs (L:=Ref.lib) (W:=Ref.world) (C:=Ref.defaults)
                           Sample.number_first initial)))
     = posted (trace initial).
Proof.
  apply (scalar_first_record_is_500 (L:=Ref.lib) (W:=Ref.world) (C:=Ref.defaults)
           Sample.number_first _ initial initial (VInt 1) [Sample.record_a]).
  - reflexivity.
  - reflexivity.
  - discriminate.
  - vm_compute. reflexivity.
  - vm_compute. reflexivity.
  - vm_compute. reflexivity.
  - reflexivity.
Defined.

(** [gzip_ndjson_roundtrip] on two records, stored in a gzip member. *)
Lemma gzip_ndjson_roundtrip_witness :
  (content <- decode_body (L:=Ref.lib) Sample.batch_gz ;;
   parse_ndjson (L:=Ref.lib) content) initial
    = (Ret [Sample.record_a; Sample.record_b], initial)
  /\ decode_body (L:=Ref.lib) Sample.batch_raw initial
     = decode_body (L:=Ref.lib) Sample.batch_gz initial
  /\ (Sample.batch_raw <> [] ->
      receive_logs (L:=Ref.lib) (W:=Ref.world) (C:=Ref.defaults)
        (with_data (Sample.post []) Sample.batch_raw) initial
      = receive_logs (L:=Ref.lib) (W:=Ref.world) (C:=Ref.defaults)
          (with_data (Sample.post []) Sample.batch_gz) initial).
Proof.
  apply (gzip_ndjson_roundtrip (L:=Ref.lib) (W:=Ref.world) (C:=Ref.defaults)
           [Sample.line_a; Sample.line_b] [Sample.record_a; Sample.record_b]
           Sample.batch_gz Sample.batch_raw (Sample.post []) initial).
  - reflexivity.
  - vm_compute. reflexivity.
  - vm_compute. reflexivity.
  - apply Forall2_cons; [apply (encodes_check (L:=Ref.lib)); vm_compute; reflexivity|].
    apply Forall2_cons; [apply (encodes_check (L:=Ref.lib)); vm_compute; reflexivity|].
    apply Forall2_nil.
Defined.

(* ===================================================================== *)
(** ** Further properties: the status map                                 *)
(* ===================================================================== *)

Section StatusMap.
Context {L : PyLib} {W : World} {C : Config}.

Lemma process_status req st :
  exists r st', process req st = (Ret r, st')
                /\ (data req = [] -> status r = 400)
                /\ (data req <> [] -> status r = 200 \/ status r = 500).
Proof.
  destruct (data req) as [|b d] eqn:E.
  - unfold process, try_except. rewrite E.
    unfold bind, log, emit, ret. eexists _, _. split; [reflexivity|].
    split; [reflexivity | congruence].
  - assert (Hne : data req <> []) by (rewrite E; discriminate).
    rewrite <- E.
    destruct (decode_body (data req) st) as [[content|e] st1] eqn:Hd.
    + rewrite (process_decoded req st content st1 Hne Hd).
      destruct (str_in PROBE content).
      * eexists _, _. split; [reflexivity|]. split; [congruence | now left].
      * destruct (parse_spec content) as [logs|e0].
        -- unfold try_except.
           destruct (handle_batch logs _) as [[r|e] s2] eqn:Hb.
           ++ eexists _, _. split; [reflexivity|]. split; [congruence|].
              intros _. exact (handle_batch_status _ _ _ _ Hb).
           ++ unfold internal_error, bind, log, emit, ret.
              eexists _, _. split; [reflexivity|]. split; [congruence | now right].
        -- unfold internal_error, bind, log, emit, ret.
           eexists _, _. split; [reflexivity|]. split; [congruence | now right].
    + rewrite (process_undecodable req st e st1 Hne Hd).
      eexists _, _. split; [reflexivity|]. split; [congruence | now right].
Qed.

(** X1: [receive_logs] answers every request -- no exception leaves it --
    with one of the statuses 200, 400, 401 and 500; 401 exactly for a
    request under another method than GET (a POST, or the HEAD the
    routes admit along with GET) that the token check refuses, 400
    exactly for such a request that passes the check with an empty body;
    a GET is never refused. *)
Theorem receive_logs_status_map (req : request) (st : state) :
  exists r st',
    receive_logs req st = (Ret r, st')
    /\ (status r = 200 \/ status r = 400 \/ status r = 401 \/ status r = 500)
    /\ (status r = 401 <-> method req <> GET /\ unauthorized req = true)
    /\ (status r = 400 <->
        method req <> GET /\ unauthorized req = false /\ data req = [])
    /\ (method req = GET -> status r = 200 /\ st' = st).
Proof.
  assert (Hm : method req = GET \/ method req <> GET)
    by (destruct (method req); [left|right|right]; congruence).
  destruct Hm as [Hm|Hm].
  - unfold receive_logs. rewrite Hm.
    eexists _, _. split; [reflexivity|]. cbn [status snd].
    split; [now left|].
    split; [split; [lia | intros (H & _); congruence]|].
    split; [split; [lia | intros (H & _); congruence]|].
    intros _. now split.
  - rewrite (receive_logs_not_get req st Hm).
    cut (exists r st',
           (if unauthorized req
            then (Ret (error_body (lit "Unauthorized"), 401),
                  add_events st [Logged WARNING (UnauthorizedRequest (remote_addr req))])
            else process req st) = (Ret r, st')
           /\ (status r = 200 \/ status r = 400 \/ status r = 401 \/ status r = 500)
           /\ (status r = 401 <-> method req <> GET /\ unauthorized req = true)
           /\ (status r = 400 <->
               method req <> GET /\ unauthorized req = false /\ data req = [])).
    { intros (r & st' & H1 & H2 & H3 & H4). exists r, st'.
      repeat (split; [assumption|]). intros E. congruence. }
    destruct (unauthorized req) eqn:Ha.
    + eexists _, _. split; [reflexivity|]. cbn [status snd].
      split; [right; right; now left|].
      split; split; auto; try lia; try (intros (_ & H & _); discriminate).
    + destruct (process_status req st) as (r & st' & -> & H0 & H1).
      exists r, st'. split; [reflexivity|].
      destruct (data req) as [|b d] eqn:E.
      * rewrite (H0 eq_refl). split; [right; now left|].
        split; split; auto; try lia; try (intros (_ & H); discriminate).
      * assert (Hs : status r = 200 \/ status r = 500) by (apply H1; discriminate).
        split; [destruct Hs; auto|].
        split; split; try (intros; lia);
          try (intros (_ & H); discriminate);
          try (intros (_ & _ & H); discriminate).
Qed.

End StatusMap.

(* ===================================================================== *)
(** ** Further properties: the token check reads a substring              *)
(* ===================================================================== *)

Lemma startswith_iff s p : startswith s p = true <-> exists r, s = p ++ r.
Proof.
  revert s. induction p as [|x p IH]; intros s.
  - split; [intros _; now exists s | now destruct s].
  - destruct s as [|y s]; simpl.
    + split; [discriminate | intros (r & H); discriminate].
    + rewrite andb_true_iff, N.eqb_eq, IH. split.
      * intros (-> & r & ->). eauto.
      * intros (r & H). injection H as -> ->. eauto.
Qed.

(** [needle in hay] holds exactly of the substrings. *)
Lemma str_in_iff needle hay :
  str_in needle hay = true <-> exists p s, hay = p ++ needle ++ s.
Proof.
  induction hay as [|c hay IH].
  - cbn [str_in]. rewrite orb_false_r, startswith_iff. split.
    + intros (r & H). exists [], r. exact H.
    + intros (p & s & H). symmetry in H.
      apply app_eq_nil in H as [-> H]. exists s. now rewrite H.
  - cbn [str_in]. rewrite orb_true_iff, startswith_iff, IH. split.
    + intros [(r & H) | (p & s & H)].
      * exists [], r. exact H.
      * exists (c :: p), s. now rewrite H.
    + intros (p & s & H). destruct p as [|x p].
      * left. exists s. exact H.
      * right. injection H as _ H. eauto.
Qed.

Section TokenFacts.
Context {L : PyLib} {W : World} {C : Config}.

(** X2: the token check lets a request through exactly when the
    configured token is [changeme], or the Authorization header is
    [Bearer <token>], or the [token] query parameter contains the token
    anywhere inside it -- so a parameter that merely embeds the token
    passes, and with an empty configured token every request passes. *)
Theorem token_check_is_substring (req : request) :
  (unauthorized req = false <->
     AUTH_TOKEN = lit "changeme"
     \/ authorization req = Some (lit "Bearer " ++ AUTH_TOKEN)
     \/ exists before after,
          get_or (token_arg req) [] = before ++ AUTH_TOKEN ++ after)
  /\ (AUTH_TOKEN = [] -> unauthorized req = false).
Proof.
  assert (E : unauthorized req = false <->
              AUTH_TOKEN = lit "changeme"
              \/ authorization req = Some (lit "Bearer " ++ AUTH_TOKEN)
              \/ exists before after,
                   get_or (token_arg req) [] = before ++ AUTH_TOKEN ++ after).
  { unfold unauthorized.
    rewrite !andb_false_iff, !negb_false_iff, !str_eqb_eq, str_in_iff.
    assert (Hh : get_or (authorization req) [] = lit "Bearer " ++ AUTH_TOKEN
                 <-> authorization req = Some (lit "Bearer " ++ AUTH_TOKEN)).
    { destruct (authorization req) as [h|]; cbn [get_or]; split.
      - intros ->. reflexivity.
      - intros H. now injection H.
      - intros H. unfold lit in H. simpl in H. discriminate H.
      - discriminate. }
    rewrite Hh. tauto. }
  split; [exact E|].
  intros H. apply E. right. right. rewrite H.
  exists [], (get_or (token_arg req) []). reflexivity.
Qed.

End TokenFacts.

(* ===================================================================== *)
(** ** Further properties: timestamps in order, and what is pushed        *)
(* ===================================================================== *)

Section StampFacts.
Context {L : PyLib} {W : World} {C : Config}.

Lemma ts_ns_of_field d st :
  ts_ns_of (VDict d) st =
  match field_ns (VDict d) with
  | Some ns => (Ret (str_of_int ns), st)
  | None => (Ret (str_of_int (time_ns (ticks st))), tick st)
  end.
Proof. apply ts_ns_of_dict. Qed.

Lemma build_values_stamps logs : forall values st,
  forallb is_dict logs = true ->
  build_values logs values st =
  (Ret (values ++ stamps (ticks st) logs),
   mk_state (ticks st + clock_reads logs)%nat (trace st)).
Proof.
  induction logs as [|record rest IH]; intros values st H.
  - cbn. unfold ret. rewrite app_nil_r, Nat.add_0_r. now destruct st.
  - cbn [forallb] in H. apply andb_true_iff in H as [Hd Hr].
    destruct record as [| | | | | |d]; try discriminate.
    cbn [build_values stamps]. rewrite bind_run, ts_ns_of_field.
    unfold clock_reads. cbn [filter].
    destruct (field_ns (VDict d)) as [ns|].
    + rewrite (IH _ _ Hr). now rewrite <- app_assoc.
    + rewrite (IH _ _ Hr). cbn [tick ticks trace List.length].
      rewrite <- app_assoc. cbn [app]. fold (clock_reads rest).
      now rewrite Nat.add_succ_r.
Qed.

Lemma build_values_bad logs : forall values st,
  forallb is_dict logs = false ->
  exists n, build_values logs values st = (Raise AttributeError, mk_state n (trace st)).
Proof.
  induction logs as [|record rest IH]; intros values st H; [discriminate|].
  destruct (is_dict record) eqn:Hd.
  - cbn [forallb] in H. rewrite Hd in H. cbn in H.
    destruct record as [| | | | | |d]; try discriminate.
    destruct (ts_ns_of_dict_returns d st) as (ts & n & Hts).
    cbn [build_values]. rewrite bind_run, Hts.
    destruct (IH (values ++ [VList [VStr ts; VStr (json_dumps (VDict d))]])
                 (mk_state n (trace st)) H) as (n' & ->).
    now exists n'.
  - exists (ticks st). rewrite build_values_not_dict by assumption. now destruct st.
Qed.

Lemma push_to_loki_bad logs labels st :
  forallb is_dict logs = false ->
  exists n, push_to_loki logs labels st = (Raise AttributeError, mk_state n (trace st)).
Proof.
  intros H. destruct (build_values_bad logs [] st H) as (n & Hb).
  exists n. unfold push_to_loki. destruct logs as [|record rest]; [discriminate|].
  now rewrite bind_run, Hb.
Qed.

Lemma push_to_loki_stamps logs labels st :
  logs <> [] -> forallb is_dict logs = true ->
  let payload :=
    stream_payload (match labels with Some l => l | None => default_labels end)
      (stamps (ticks st) logs) in
  let failure := push_error (backend push_url payload) in
  push_to_loki logs labels st =
  (Ret (match failure with None => true | Some _ => false end),
   mk_state (ticks st + clock_reads logs)%nat
     (trace st
      ++ Posted push_url payload (lit "application/json") 30
         :: match failure with
            | Some k => [Logged ERROR (PushFailed (RequestException k))]
            | None => []
            end)).
Proof.
  intros Hne Hd. cbv zeta.
  unfold push_to_loki. destruct logs as [|record rest]; [congruence|].
  rewrite bind_run, (build_values_stamps _ [] st Hd). cbn [app].
  fold (stream_payload (match labels with Some l => l | None => default_labels end)
          (stamps (ticks st) (record :: rest))).
  fold push_url.
  set (payload := stream_payload _ _).
  unfold try_except, requests_post, raise_for_status, push_error.
  rewrite bind_run, bind_run. unfold emit at 1.
  destruct (backend push_url payload) as [code|k].
  - unfold ret at 1. rewrite bind_run.
    destruct ((400 <=? code) && (code <? 600)).
    + unfold raise, bind, log, emit, ret, add_events. cbn [ticks trace].
      now rewrite <- app_assoc.
    + reflexivity.
  - unfold raise, bind, log, emit, ret, add_events. cbn [ticks trace].
    now rewrite <- app_assoc.
Qed.

Lemma derive_labels_not_dict v st :
  is_dict v = false ->
  derive_labels v st = (Raise TypeError, st)
  \/ derive_labels v st = (Ret default_labels, st).
Proof.
  intros H. destruct v as [| | | |s|l|d]; try discriminate;
    try (left; reflexivity).
  - unfold derive_labels, contains. rewrite bind_run. unfold ret at 1.
    destruct (str_in (lit "ClientRequestHost") s); [left | right]; reflexivity.
  - unfold derive_labels, contains. rewrite bind_run. unfold ret at 1.
    destruct (existsb _ l); [left | right]; reflexivity.
Qed.

(** A batch with a record that is no object is not forwarded: the label
    derivation or the timestamp loop raises before the HTTP call. *)
Lemma handle_batch_bad logs st :
  forallb is_dict logs = false ->
  exists e n,
    (e = TypeError \/ e = AttributeError)
    /\ handle_batch logs st = (Raise e, mk_state n (trace st)).
Proof.
  intros H. destruct logs as [|sample_log rest]; [discriminate|].
  unfold handle_batch. rewrite bind_run.
  destruct (is_dict sample_log) eqn:Hd.
  - destruct sample_log as [| | | | | |d]; try discriminate.
    rewrite derive_labels_dict, bind_run.
    destruct (push_to_loki_bad (VDict d :: rest) (Some (VDict (labels_of d))) st H)
      as (n & ->).
    exists AttributeError, n. auto.
  - destruct (derive_labels_not_dict sample_log st Hd) as [-> | ->].
    + exists TypeError, (ticks st). split; auto. now destruct st.
    + rewrite bind_run.
      destruct (push_to_loki_bad (sample_log :: rest) (Some default_labels) st H)
        as (n & ->).
      exists AttributeError, n. auto.
Qed.

Lemma handle_batch_stamps d rest st :
  forallb is_dict rest = true ->
  let logs := VDict d :: rest in
  let payload := stream_payload (VDict (labels_of d)) (stamps (ticks st) logs) in
  let pushed := Posted push_url payload (lit "application/json") 30 in
  handle_batch logs st =
  match push_error (backend push_url payload) with
  | None =>
      (Ret (ok_processed (List.length logs), 200),
       mk_state (ticks st + clock_reads logs)%nat
         (trace st ++ [pushed; Logged INFO (Processed (List.length logs))]))
  | Some k =>
      (Ret (error_body (lit "Failed to push to Loki"), 500),
       mk_state (ticks st + clock_reads logs)%nat
         (trace st ++ [pushed; Logged ERROR (PushFailed (RequestException k))]))
  end.
Proof.
  intros Hr logs payload pushed. subst logs payload pushed.
  unfold handle_batch.
  rewrite bind_run, derive_labels_dict, bind_run.
  rewrite (push_to_loki_stamps (VDict d :: rest) (Some (VDict (labels_of d))) st)
    by (try discriminate; exact Hr).
  destruct (push_error _) as [k|].
  - reflexivity.
  - unfold bind, log, emit, ret, add_events. cbn [ticks trace].
    now rewrite <- app_assoc.
Qed.


End StampFacts.

Section ForwardFacts.
Context {L : PyLib} {W : World} {C : Config}.



(** X6: the smoke test pushes its one fixed record under the labels
    [job=cloudflare], [source=test] -- no [host], though the record names
    one -- in exactly one call, asks for no credentials, never raises,
    and answers 200 when the push is accepted and 500 when it is not;
    when [fromisoformat] reads the record's timestamp, the value pushed
    is ["1704067200000000000"] and the clock is not read. *)
Theorem test_endpoint_answer (st : state) :
  let payload := stream_payload test_labels (stamps (ticks st) [test_log]) in
  let pushed := Posted push_url payload (lit "application/json") 30 in
  test_endpoint st =
    match push_error (backend push_url payload) with
    | None =>
        (Ret (VDict [(lit "status", VStr (lit "ok"));
                     (lit "message", VStr (lit "Test log pushed to Loki"))], 200),
         mk_state (ticks st + clock_reads [test_log])%nat (trace st ++ [pushed]))
    | Some k =>
        (Ret (VDict [(lit "error", VStr (lit "Failed to push test log"))], 500),
         mk_state (ticks st + clock_reads [test_log])%nat
           (trace st ++ [pushed; Logged ERROR (PushFailed (RequestException k))]))
    end
  /\ (fromisoformat (lit "2024-01-01T00:00:00+00:00")
        = Some (mk_datetime 2024 1 1 0 0 0 0 (Some 0)) ->
      stamps (ticks st) [test_log]
        = [VList [VStr (lit "1704067200000000000"); VStr (json_dumps test_log)]]
      /\ clock_reads [test_log] = 0%nat).
Proof.
  cbv zeta. split.
  - unfold test_endpoint. rewrite bind_run.
    fold test_labels.
    rewrite (push_to_loki_stamps [test_log] (Some test_labels) st)
      by (try discriminate; reflexivity).
    cbv zeta. destruct (push_error _); reflexivity.
  - intros Hf.
    assert (E : field_ns test_log = Some 1704067200000000000).
    { unfold field_ns, test_log.
      match goal with
      | |- context [dict_get ?dd ?k] =>
          replace (dict_get dd k)
            with (Some (VStr (lit "2024-01-01T00:00:00Z"))) by reflexivity
      end.
      cbn [parsed_ns]. rewrite replace_example, Hf. reflexivity. }
    unfold clock_reads. cbn [stamps filter]. rewrite E. split; reflexivity.
Qed.

End ForwardFacts.

Section OnePush.
Context {L : PyLib} {W : World} {C : Config}.

Lemma well_pushed_logged evs : posted evs = [] -> well_pushed evs.
Proof.
  unfold well_pushed. induction evs as [|ev evs IH]; intros H; constructor.
  - destruct ev; [exact I | discriminate].
  - apply IH. destruct ev; [exact H | discriminate].
Qed.

Lemma well_pushed_app a b : well_pushed a -> well_pushed b -> well_pushed (a ++ b).
Proof. unfold well_pushed. intros. apply Forall_app. auto. Qed.

Lemma handle_batch_trace logs st :
  exists r n evs,
    handle_batch logs st = (r, mk_state n (trace st ++ evs))
    /\ well_pushed evs /\ (List.length (posted evs) <= 1)%nat.
Proof.
  destruct (forallb is_dict logs) eqn:Hd.
  - destruct logs as [|record rest].
    + eexists _, _, [_]. split; [reflexivity|].
      split; [apply well_pushed_logged; reflexivity | cbn; lia].
    + cbn [forallb] in Hd. apply andb_true_iff in Hd as [H0 Hr].
      destruct record as [| | | | | |d]; try discriminate.
      rewrite (handle_batch_stamps d rest st Hr). cbv zeta.
      destruct (push_error _); eexists _, _, [_; _];
        (split; [reflexivity|]);
        (split; [repeat constructor; auto | cbn; lia]).
  - destruct (handle_batch_bad logs st Hd) as (e & n & _ & ->).
    exists (Raise e), n, []. rewrite app_nil_r.
    split; [reflexivity|]. split; [constructor | cbn; lia].
Qed.

(** X7: whatever the request, the handler calls the backend at most once
    (no retry, no fan-out), and only ever the push endpoint of the
    configured Loki, with a JSON content type and a timeout of 30
    seconds; everything else it leaves behind is log records. *)
Theorem at_most_one_push (req : request) (st : state) :
  exists evs,
    trace (snd (receive_logs req st)) = trace st ++ evs
    /\ well_pushed evs
    /\ (List.length (posted evs) <= 1)%nat.
Proof.
  assert (Hm : method req = GET \/ method req <> GET)
    by (destruct (method req); [left|right|right]; congruence).
  destruct Hm as [Hm|Hm].
  { unfold receive_logs. rewrite Hm.
    exists []. cbn. rewrite app_nil_r. repeat split; [constructor | lia]. }
  rewrite (receive_logs_not_get req st Hm).
  destruct (unauthorized req).
  { exists [Logged WARNING (UnauthorizedRequest (remote_addr req))].
    split; [reflexivity|]. split; [repeat constructor | cbn; lia]. }
  destruct (data req) as [|b r] eqn:E.
  { unfold process, try_except. rewrite E.
    exists [Logged WARNING EmptyRequest].
    split; [reflexivity|]. split; [repeat constructor | cbn; lia]. }
  assert (Hne : data req <> []) by (rewrite E; discriminate).
  clear E.
  destruct (decode_body_cases (data req) st) as (evs0 & Hp0 & [(c & Hc) | Hr]).
  - rewrite (process_decoded req st c _ Hne Hc).
    destruct (str_in PROBE c).
    { exists (evs0 ++ [Logged INFO ValidationRequest]).
      cbn [snd]. unfold add_events. cbn [trace]. rewrite <- app_assoc.
      split; [reflexivity|]. split.
      - apply well_pushed_app; [now apply well_pushed_logged | repeat constructor].
      - rewrite posted_app, Hp0. cbn. lia. }
    set (s2 := add_events (add_events st evs0) (warnings_of (lines_of c))).
    assert (Hs2 : trace s2 = trace st ++ evs0 ++ warnings_of (lines_of c)).
    { subst s2. unfold add_events. cbn [trace]. now rewrite <- app_assoc. }
    assert (Hpre : well_pushed (evs0 ++ warnings_of (lines_of c))
                   /\ posted (evs0 ++ warnings_of (lines_of c)) = []).
    { split.
      - apply well_pushed_app; apply well_pushed_logged; auto using posted_warnings.
      - now rewrite posted_app, Hp0, posted_warnings. }
    destruct Hpre as [Hw0 Hq0].
    destruct (parse_spec c) as [logs|e0].
    2:{ exists ((evs0 ++ warnings_of (lines_of c)) ++ [Logged ERROR (ProcessingError e0)]).
        unfold internal_error, bind, log, emit, ret, add_events. cbn [snd trace ticks].
        rewrite Hs2, <- !app_assoc.
        split; [reflexivity|]. rewrite !app_assoc. split.
        - apply well_pushed_app; [assumption | repeat constructor].
        - rewrite posted_app, Hq0. cbn. lia. }
    destruct (handle_batch_trace logs s2) as (r0 & n & evs & Hh & Hw & Hl).
    unfold try_except. rewrite Hh.
    destruct r0 as [resp|e].
    + exists ((evs0 ++ warnings_of (lines_of c)) ++ evs).
      cbn [snd trace]. rewrite Hs2, <- !app_assoc.
      split; [reflexivity|]. rewrite !app_assoc. split.
      * now apply well_pushed_app.
      * rewrite posted_app, Hq0. exact Hl.
    + exists ((evs0 ++ warnings_of (lines_of c)) ++ evs ++ [Logged ERROR (ProcessingError e)]).
      unfold internal_error, bind, log, emit, ret, add_events. cbn [snd trace ticks].
      rewrite Hs2, <- !app_assoc.
      split; [reflexivity|]. rewrite !app_assoc. split.
      * apply well_pushed_app; [now apply well_pushed_app | repeat constructor].
      * rewrite <- !app_assoc, posted_app, Hp0, posted_app, posted_warnings, posted_app.
        cbn [app]. cbn [posted flat_map]. rewrite app_nil_r. exact Hl.
  - rewrite (process_undecodable req st _ _ Hne Hr).
    exists (evs0 ++ [Logged ERROR (ProcessingError UnicodeDecodeError)]).
    cbn [snd]. unfold add_events. cbn [trace]. rewrite <- app_assoc.
    split; [reflexivity|]. split.
    + apply well_pushed_app; [now apply well_pushed_logged | repeat constructor].
    + rewrite posted_app, Hp0. cbn. lia.
Qed.

End OnePush.

(* ===================================================================== *)
(** ** Further properties: what the decoding stage reads                  *)
(* ===================================================================== *)

Section DecodeMore.
Context {L : PyLib} {W : World} {C : Config}.

(** X8: the decoding stage returns a text for a non-empty body exactly
    when the body carries it -- as its own UTF-8 when it does not start
    with the gzip magic number, as the UTF-8 of what it inflates to when
    it does -- and then logs nothing; a body with the magic number is
    never read as plain text. *)
Theorem decoded_text_is_carried (d : bytes) (content : str) (st st1 : state) :
  d <> [] ->
  (decode_body d st = (Ret content, st1) <-> carries d content /\ st1 = st)
  /\ (has_magic d = true ->
      decode_body d st = (Ret content, st1) ->
      exists raw, gunzip d = Ret raw /\ utf8_decode raw = Some content).
Proof.
  intros Hne.
  assert (E : decode_body d st = (Ret content, st1) -> carries d content /\ st1 = st).
  { intros H. pose proof (decode_body_returns d content st st1 Hne H) as Hc.
    split; auto. rewrite (decode_body_carries d content st Hc) in H. congruence. }
  split; [split; [exact E|]|].
  - intros (Hc & ->). now apply decode_body_carries.
  - intros Hm H. destruct (E H) as ([_ Hu | raw _ Hg Hu] & _).
    + rewrite (utf8_no_magic d Hm) in Hu. discriminate.
    + eauto.
Qed.

(** X9: a body that was gzipped twice is inflated once, not twice: what
    comes out starts with the magic number and is no UTF-8, the raw bytes
    tried next are none either, and the request is answered 500 after one
    warning and one error log, with nothing pushed. *)
Theorem double_gzip_is_500 (req : request) (raw : bytes) (st : state) :
  method req = POST ->
  unauthorized req = false ->
  has_magic (data req) = true ->
  gunzip (data req) = Ret raw ->
  has_magic raw = true ->
  receive_logs req st =
    (Ret (error_body (exn_str UnicodeDecodeError), 500),
     add_events st [Logged WARNING (DecompressionFailed UnicodeDecodeError);
                    Logged ERROR (ProcessingError UnicodeDecodeError)]).
Proof.
  intros Hm Ha Hmg Hg Hr.
  assert (Hne : data req <> []) by (intros E; rewrite E in Hmg; discriminate).
  assert (Hd : decode_body (data req) st =
               (Raise UnicodeDecodeError,
                add_events st [Logged WARNING (DecompressionFailed UnicodeDecodeError)])).
  { unfold decode_body, try_except, bind, gzip_decompress, decode.
    destruct (data req) as [|b r] eqn:E; [congruence|].
    rewrite Hmg. unfold lift. rewrite Hg.
    rewrite (utf8_no_magic raw Hr), (utf8_no_magic _ Hmg). reflexivity. }
  rewrite receive_logs_post by assumption.
  rewrite (process_undecodable req st _ _ Hne Hd).
  now rewrite add_events_app.
Qed.

End DecodeMore.

(* ===================================================================== *)
(** ** Further properties: the parser on joined texts and on CRLF         *)
(* ===================================================================== *)

Lemma split_join a b :
  split NEWLINE (a ++ NEWLINE :: b) = split NEWLINE a ++ split NEWLINE b.
Proof.
  rewrite split_app. cbn [split]. rewrite N.eqb_refl. cbn [hd tl].
  rewrite app_nil_r.
  destruct (split_cons NEWLINE a) as (l & ls & E).
  assert (N : split NEWLINE a <> []) by (rewrite E; discriminate).
  rewrite (app_removelast_last [] N) at 3.
  rewrite <- app_assoc. reflexivity.
Qed.

Lemma lines_of_join a b : lines_of (a ++ NEWLINE :: b) = lines_of a ++ lines_of b.
Proof. unfold lines_of. now rewrite split_join, map_app, filter_app. Qed.

Lemma carriage_return_is_space : is_space 13 = true.
Proof. reflexivity. Qed.

Lemma split_crlf text :
  split NEWLINE (crlf text)
  = map (fun l => l ++ [13%N]) (removelast (split NEWLINE text))
    ++ [last (split NEWLINE text) []].
Proof.
  induction text as [|c text IH]; [reflexivity|].
  unfold crlf in *. cbn [flat_map split].
  destruct (split_cons NEWLINE text) as (l & ls & E).
  destruct (N.eqb c NEWLINE) eqn:Hc.
  - cbn [app split]. rewrite N.eqb_refl. cbn [N.eqb Pos.eqb].
    change (N.eqb 13 NEWLINE) with false. cbn match.
    rewrite IH, E. cbn [split].
    destruct ls; reflexivity.
  - cbn [app split]. rewrite Hc, IH, E.
    destruct ls as [|x xs]; reflexivity.
Qed.

Lemma lines_of_crlf text : lines_of (crlf text) = lines_of text.
Proof.
  unfold lines_of. rewrite split_crlf.
  destruct (split_cons NEWLINE text) as (l & ls & E).
  assert (N : split NEWLINE text <> []) by (rewrite E; discriminate).
  rewrite (app_removelast_last [] N) at 3.
  rewrite !map_app, map_map. f_equal. f_equal.
  apply map_ext. intros x. apply strip_app_blank. reflexivity.
Qed.

Section ParserMore.
Context {L : PyLib}.

Lemma records_of_app a b :
  records_of (a ++ b) =
  match records_of a with
  | Ret ra => match records_of b with
              | Ret rb => Ret (ra ++ rb)
              | Raise e => Raise e
              end
  | Raise e => Raise e
  end.
Proof.
  induction a as [|l a IH]; cbn [app records_of].
  - now destruct (records_of b).
  - destruct (json_loads l) as [v|e].
    + rewrite IH. destruct (records_of a); [|reflexivity].
      now destruct (records_of b).
    + destruct e; auto.
Qed.

Lemma warnings_of_app a b :
  warnings_of (a ++ b) =
  warnings_of a ++ match records_of a with
                   | Ret _ => warnings_of b
                   | Raise _ => []
                   end.
Proof.
  induction a as [|l a IH]; cbn [app records_of warnings_of].
  - reflexivity.
  - destruct (json_loads l) as [v|e].
    + rewrite IH. now destruct (records_of a).
    + destruct e; auto. rewrite IH. reflexivity.
Qed.

(** X10: parsing two texts joined by a newline is parsing the first and
    then, if that returns, the second: the records are those of the
    first followed by those of the second, and so are the warnings; an
    exception that ends the parse of either ends the whole parse, in the
    same state. *)
Theorem parse_joined_texts (a b : str) (st : state) :
  parse_ndjson (a ++ NEWLINE :: b) st
  = (ra <- parse_ndjson a ;; rb <- parse_ndjson b ;; ret (ra ++ rb)) st.
Proof.
  rewrite bind_run, !parse_ndjson_spec. unfold parse_spec.
  rewrite lines_of_join, records_of_app, warnings_of_app.
  destruct (records_of (lines_of a)) as [ra|e].
  - rewrite bind_run, parse_ndjson_spec. unfold parse_spec.
    rewrite <- add_events_app.
    now destruct (records_of (lines_of b)).
  - now rewrite app_nil_r.
Qed.

(** X11: a text whose lines end in carriage return and newline is parsed
    like the text with bare newlines: same records, same warnings. *)
Theorem parse_crlf (text : str) (st : state) :
  parse_ndjson (crlf text) st = parse_ndjson text st.
Proof.
  rewrite !parse_ndjson_spec. unfold parse_spec. now rewrite lines_of_crlf.
Qed.

End ParserMore.

(* ===================================================================== *)
(** ** Further properties: whole seconds are stamped exactly              *)
(* ===================================================================== *)

Lemma digits2_log2 p : Zpos (digits2_pos p) = Z.log2 (Zpos p) + 1.
Proof.
  assert (S : forall q, digits2_pos q = Pos.size q).
  { induction q; simpl; congruence. }
  rewrite S. destruct p; simpl; lia.
Qed.

Lemma Zdigits2_log2 m : 0 < m -> Zdigits2 m = Z.log2 m + 1.
Proof. destruct m; try lia. intros _. apply digits2_log2. Qed.

Lemma Zdigits2_mul_pow2 m n : 0 < m -> 0 <= n -> Zdigits2 (m * 2 ^ n) = Zdigits2 m + n.
Proof.
  intros Hm Hn. rewrite !Zdigits2_log2 by nia.
  rewrite Z.log2_mul_pow2 by lia. lia.
Qed.

Lemma iter_pos_nat {A} (f : A -> A) p : forall x,
  iter_pos f p x = Nat.iter (Pos.to_nat p) f x.
Proof.
  induction p as [p IH|p IH|]; intros x; cbn [iter_pos].
  - rewrite !IH, Pos2Nat.inj_xI, Nat.iter_succ_r.
    replace (2 * Pos.to_nat p)%nat with (Pos.to_nat p + Pos.to_nat p)%nat by lia.
    now rewrite Nat.iter_add.
  - rewrite !IH, Pos2Nat.inj_xO.
    replace (2 * Pos.to_nat p)%nat with (Pos.to_nat p + Pos.to_nat p)%nat by lia.
    now rewrite Nat.iter_add.
  - reflexivity.
Qed.

Lemma shr_1_even k :
  0 < k -> shr_1 (Build_shr_record (2 * k) false false) = Build_shr_record k false false.
Proof. destruct k; try lia. reflexivity. Qed.

Lemma iter_shr_1 n : forall k,
  0 < k ->
  Nat.iter n shr_1 (Build_shr_record (k * 2 ^ Z.of_nat n) false false)
  = Build_shr_record k false false.
Proof.
  induction n as [|n IH]; intros k Hk.
  - cbn. f_equal. lia.
  - rewrite Nat.iter_succ_r.
    replace (k * 2 ^ Z.of_nat (S n)) with (2 * (k * 2 ^ Z.of_nat n))
      by (rewrite Nat2Z.inj_succ, Z.pow_succ_r by lia; ring).
    rewrite shr_1_even by nia. now apply IH.
Qed.

(** Rounding a number that fits: [k * 2^n * 2^e] with [k] of at most 53
    digits is kept as it is. *)
Lemma binary_round_aux_exact k n e :
  0 < k -> 0 <= n ->
  Zdigits2 k <= 53 -> (n = 0 \/ Zdigits2 k = 53) ->
  -1000 <= e -> e + n <= 971 ->
  binary_round_aux 53 1024 false (k * 2 ^ n) e loc_Exact
  = S754_finite false (Z.to_pos k) (e + n).
Proof.
  intros Hk Hn Hd Hc He Ho.
  assert (Hdk : 1 <= Zdigits2 k).
  { rewrite Zdigits2_log2 by lia. pose proof (Z.log2_nonneg k). lia. }
  unfold binary_round_aux.
  assert (S1 : shr_fexp 53 1024 (k * 2 ^ n) e loc_Exact
               = (Build_shr_record k false false, e + n)).
  { unfold shr_fexp, fexp, emin. rewrite Zdigits2_mul_pow2 by lia.
    cbn [shr_record_of_loc].
    replace (Z.max (Zdigits2 k + n + e - 53) (3 - 1024 - 53) - e)
      with (Zdigits2 k + n - 53) by lia.
    destruct Hc as [-> | Hc].
    - rewrite Z.pow_0_r, Z.mul_1_r, !Z.add_0_r.
      unfold shr. destruct (Zdigits2 k - 53) eqn:E; try lia; reflexivity.
    - rewrite Hc. replace (53 + n - 53) with n by lia.
      unfold shr. destruct n as [|p|p]; try lia.
      + now rewrite Z.pow_0_r, Z.mul_1_r, Z.add_0_r.
      + rewrite iter_pos_nat.
        rewrite <- (positive_nat_Z p) at 1.
        now rewrite iter_shr_1. }
  rewrite S1. cbn [shr_m loc_of_shr_record round_nearest_even shr_r shr_s].
  assert (S2 : shr_fexp 53 1024 k (e + n) loc_Exact
               = (Build_shr_record k false false, e + n)).
  { unfold shr_fexp, fexp, emin. cbn [shr_record_of_loc].
    replace (Z.max (Zdigits2 k + (e + n) - 53) (3 - 1024 - 53) - (e + n))
      with (Zdigits2 k - 53) by lia.
    unfold shr. destruct (Zdigits2 k - 53) eqn:E; try lia; reflexivity. }
  rewrite S2. cbn [shr_m].
  destruct k as [|pk|pk]; try lia.
  replace (e + n <=? 1024 - 53) with true by (symmetry; apply Z.leb_le; lia).
  reflexivity.
Qed.

Lemma div_eucl_exact q b : 0 < b -> Z.div_eucl (q * b) b = (q, 0).
Proof.
  intros Hb.
  assert (E : Z.div_eucl (q * b) b = ((q * b) / b, (q * b) mod b)).
  { unfold Z.div, Z.modulo. now destruct (Z.div_eucl (q * b) b). }
  rewrite E, Z_div_mult, Z_mod_mult by lia. reflexivity.
Qed.

Lemma f1e9_value : f1e9 = S754_finite false 8388608000000000 (-23).
Proof. vm_compute. reflexivity. Qed.

(** Whole seconds as a quotient of microseconds: the quotient is the
    number of seconds itself, normalised to 53 digits. *)
Lemma true_div_seconds T :
  0 < T -> T < 2 ^ 33 ->
  let j := 53 - Zdigits2 T in
  true_div (T * 1000000) 1000000 = S754_finite false (Z.to_pos (T * 2 ^ j)) (- j).
Proof.
  intros Hp Hb j.
  assert (HdT : 1 <= Zdigits2 T <= 33).
  { rewrite Zdigits2_log2 by lia.
    pose proof (Z.log2_nonneg T).
    assert (Z.log2 T < 33) by (apply Z.log2_lt_pow2; lia). lia. }
  pose proof (Z.log2_spec T Hp) as [HT1 HT2].
  rewrite <- Z.add_1_r in HT2.
  set (a := T * 1000000).
  assert (Ha : 0 < a) by (subst a; lia).
  assert (Hda : Zdigits2 T + 19 <= Zdigits2 a <= Zdigits2 T + 20).
  { rewrite !Zdigits2_log2 by lia. split.
    - assert (Z.log2 T + 19 <= Z.log2 a); [|lia].
      apply Z.log2_le_pow2; [lia|].
      rewrite Z.pow_add_r by (pose proof (Z.log2_nonneg T); lia).
      subst a. change (2 ^ 19) with 524288. nia.
    - assert (Z.log2 a < Z.log2 T + 21); [|lia].
      apply Z.log2_lt_pow2; [lia|].
      replace (Z.log2 T + 21) with ((Z.log2 T + 1) + 20) by lia.
      rewrite Z.pow_add_r by (pose proof (Z.log2_nonneg T); lia).
      subst a. change (2 ^ 20) with 1048576. nia. }
  set (s := 73 - Zdigits2 a).
  assert (Hs : 0 < s) by (subst s; lia).
  assert (Core : SFdiv_core_binary 53 1024 a 0 1000000 0 = (T * 2 ^ s, - s, loc_Exact)).
  { unfold SFdiv_core_binary, fexp, emin.
    change (Zdigits2 1000000) with 20.
    replace (Z.min (Z.max (Zdigits2 a + 0 - (20 + 0) - 53) (3 - 1024 - 53)) (0 - 0))
      with (- s) by (subst s; lia).
    replace (0 - 0 - - s) with s by lia.
    destruct s as [|ps|ps] eqn:Es; try lia.
    rewrite Z.shiftl_mul_pow2 by lia.
    replace (a * 2 ^ Z.pos ps) with ((T * 2 ^ Z.pos ps) * 1000000) by (subst a; ring).
    rewrite div_eucl_exact by lia. reflexivity. }
  unfold true_div.
  assert (Ea : exact_int a = S754_finite false (Z.to_pos a) 0)
    by (destruct a; try lia; reflexivity).
  rewrite Ea. cbn [exact_int SFdiv].
  rewrite Z2Pos.id by lia. rewrite Core. cbn [xorb].
  replace (T * 2 ^ s) with ((T * 2 ^ j) * 2 ^ (s - j)).
  2: { rewrite <- Z.mul_assoc, <- Z.pow_add_r by (subst s j; lia).
       do 2 f_equal. lia. }
  rewrite binary_round_aux_exact.
  - f_equal. lia.
  - subst j. apply Z.mul_pos_pos; [lia|]. apply Z.pow_pos_nonneg; lia.
  - subst s j. lia.
  - subst j. rewrite Zdigits2_mul_pow2 by lia. lia.
  - right. subst j. rewrite Zdigits2_mul_pow2 by lia. lia.
  - subst s. lia.
  - subst s j. lia.
Qed.

(** The float arithmetic of line 50 is exact on whole seconds: as long
    as [T * 5^9] fits the 53 digits of a binary64, [int(T * 1e9)]
    computed from the quotient of microseconds is [T * 10^9]. *)
Lemma whole_seconds_exact T :
  0 <= T -> T * 1953125 < 2 ^ 53 ->
  int_of_float (float_mul (true_div (T * 1000000) 1000000) f1e9)
  = Some (T * 1000000000).
Proof.
  intros H0 Hb.
  destruct (Z.eq_dec T 0) as [->|Hn]; [vm_compute; reflexivity|].
  assert (Hp : 0 < T) by lia.
  assert (H33 : T < 2 ^ 33) by (change (2 ^ 53) with 9007199254740992 in Hb;
                                change (2 ^ 33) with 8589934592; lia).
  rewrite (true_div_seconds T Hp H33). cbv zeta.
  set (j := 53 - Zdigits2 T).
  assert (HdT : 1 <= Zdigits2 T <= 33).
  { rewrite Zdigits2_log2 by lia.
    pose proof (Z.log2_nonneg T).
    assert (Z.log2 T < 33) by (apply Z.log2_lt_pow2; lia). lia. }
  set (M := T * 1953125).
  assert (HM : 0 < M) by (subst M; lia).
  assert (HdM : Zdigits2 T <= Zdigits2 M <= 53).
  { rewrite !Zdigits2_log2 by lia. split.
    - assert (Z.log2 T <= Z.log2 M) by (apply Z.log2_le_mono; subst M; lia). lia.
    - assert (Z.log2 M < 53) by (apply Z.log2_lt_pow2; lia). lia. }
  rewrite f1e9_value. unfold float_mul. cbn [SFmul xorb].
  assert (Hk : 0 < T * 2 ^ j).
  { apply Z.mul_pos_pos; [lia|]. apply Z.pow_pos_nonneg; subst j; lia. }
  rewrite Pos2Z.inj_mul, Z2Pos.id by lia.
  set (i := 53 - Zdigits2 M).
  replace (T * 2 ^ j * 8388608000000000)
    with ((M * 2 ^ i) * 2 ^ (j + 32 - i)).
  2: { rewrite <- Z.mul_assoc, <- Z.pow_add_r by (subst i j; lia).
       replace (i + (j + 32 - i)) with (j + 32) by lia.
       rewrite Z.pow_add_r by (subst j; lia).
       change (2 ^ 32) with 4294967296. subst M. ring. }
  assert (Hki : 0 < M * 2 ^ i).
  { apply Z.mul_pos_pos; [lia|]. apply Z.pow_pos_nonneg; subst i; lia. }
  rewrite binary_round_aux_exact; try (subst i j; lia).
  - cbn [int_of_float]. rewrite Z2Pos.id by lia. f_equal.
    replace (- j + -23 + (j + 32 - i)) with (9 - i) by lia.
    destruct (0 <=? 9 - i) eqn:E.
    + apply Z.leb_le in E.
      rewrite <- Z.mul_assoc, <- Z.pow_add_r by (subst i; lia).
      replace (i + (9 - i)) with 9 by lia.
      change (2 ^ 9) with 512. subst M. ring.
    + apply Z.leb_gt in E.
      replace i with (9 + (- (9 - i))) at 1 by lia.
      rewrite Z.pow_add_r by lia.
      rewrite Z.mul_assoc, Z_div_mult by (apply Z.lt_gt, Z.pow_pos_nonneg; lia).
      change (2 ^ 9) with 512. subst M. ring.
  - subst i. rewrite Zdigits2_mul_pow2 by lia. lia.
  - right. subst i. rewrite Zdigits2_mul_pow2 by lia. lia.
Qed.

Section WholeSeconds.
Context {L : PyLib} {W : World}.

(** X12: a timestamp field that [fromisoformat] reads as an offset-aware
    instant a whole number [T] of seconds after the epoch, with
    [T * 5^9 < 2^53] (any instant up to the year 2116), is stamped with
    exactly [T * 10^9] nanoseconds: there the floating-point product of
    line 50 loses nothing, and the clock is not read. *)
Theorem whole_second_timestamp_exact
    (d : list (str * value)) (s : str) (dt : datetime) (off T : Z) (st : state) :
  dict_get d (lit "EdgeStartTimestamp") = Some (VStr s) ->
  s <> [] ->
  fromisoformat (replace 90%N (lit "+00:00") s) = Some dt ->
  utcoffset dt = Some off ->
  epoch_microseconds dt off = T * 1000000 ->
  0 <= T ->
  T * 1953125 < 2 ^ 53 ->
  ts_ns_of (VDict d) st = (Ret (str_of_int (T * 1000000000)), st).
Proof.
  intros Hf Hs Hp Ho He H0 Hb.
  rewrite ts_ns_of_dict, Hf. cbn [parsed_ns].
  destruct s; [congruence|]. cbn [empty].
  rewrite Hp, Ho, He, (whole_seconds_exact T H0 Hb). reflexivity.
Qed.

End WholeSeconds.

(* ===================================================================== *)
(** ** The further properties on the reference library                    *)
(* ===================================================================== *)


(** The stamps of those two records: the first keeps its own time, the
    second takes the first reading of the clock. *)
Example stamps_of_two :
  stamps (L:=Ref.lib) (W:=Ref.world) 0 [Sample.record_a; Sample.record_b]
  = [VList [VStr (lit "1704067200000000000"); VStr (Ref.json_dumps Sample.record_a)];
     VList [VStr (lit "1700000000000000000"); VStr (Ref.json_dumps Sample.record_b)]]
  /\ clock_reads (L:=Ref.lib) [Sample.record_a; Sample.record_b] = 1%nat.
Proof. split; vm_compute; reflexivity. Qed.



(** [decoded_text_is_carried] on the gzipped batch. *)
Lemma decoded_text_is_carried_witness :
  (decode_body (L:=Ref.lib) Sample.batch_gz initial
     = (Ret (ndjson [Sample.line_a; Sample.line_b]), initial)
   <-> carries (L:=Ref.lib) Sample.batch_gz (ndjson [Sample.line_a; Sample.line_b])
       /\ initial = initial)
  /\ (has_magic Sample.batch_gz = true ->
      decode_body (L:=Ref.lib) Sample.batch_gz initial
        = (Ret (ndjson [Sample.line_a; Sample.line_b]), initial) ->
      exists raw, Ref.gunzip Sample.batch_gz = Ret raw
                  /\ utf8_decode raw = Some (ndjson [Sample.line_a; Sample.line_b])).
Proof.
  apply (decoded_text_is_carried (L:=Ref.lib)
           Sample.batch_gz (ndjson [Sample.line_a; Sample.line_b]) initial initial).
  discriminate.
Defined.

(** [double_gzip_is_500] on the batch gzipped twice. *)
Lemma double_gzip_is_500_witness :
  receive_logs (L:=Ref.lib) (W:=Ref.world) (C:=Ref.defaults) Sample.twice_gz initial =
    (Ret (error_body (lit "UnicodeDecodeError"), 500),
     add_events initial [Logged WARNING (DecompressionFailed UnicodeDecodeError);
                         Logged ERROR (ProcessingError UnicodeDecodeError)]).
Proof.
  apply (double_gzip_is_500 (L:=Ref.lib) (W:=Ref.world) (C:=Ref.defaults)
           Sample.twice_gz Sample.batch_gz initial).
  - reflexivity.
  - reflexivity.
  - reflexivity.
  - vm_compute. reflexivity.
  - reflexivity.
Defined.

(** [whole_second_timestamp_exact] on the first second of 2024. *)
Lemma whole_second_timestamp_exact_witness :
  ts_ns_of (L:=Ref.lib) (W:=Ref.world) Sample.record_a initial
  = (Ret (str_of_int (1704067200 * 1000000000)), initial).
Proof.
  apply (whole_second_timestamp_exact (L:=Ref.lib) (W:=Ref.world)
           [(lit "ClientRequestHost", VStr (lit "example.com"));
            (lit "EdgeStartTimestamp", VStr (lit "2024-01-01T00:00:00Z"))]
           (lit "2024-01-01T00:00:00Z")
           (mk_datetime 2024 1 1 0 0 0 0 (Some 0)) 0 1704067200 initial).
  - reflexivity.
  - discriminate.
  - vm_compute. reflexivity.
  - reflexivity.
  - reflexivity.
  - lia.
  - reflexivity.
Defined.

(** A HEAD request is no GET: without a configured token it reaches the
    pipeline and, having no body, is answered 400; with one, 401. *)
Example head_is_not_get :
  receive_logs (L:=Ref.lib) (W:=Ref.world) (C:=Ref.defaults) Sample.head initial
  = (Ret (error_body (lit "No data received"), 400),
     add_events initial [Logged WARNING EmptyRequest])
  /\ receive_logs (L:=Ref.lib) (W:=Ref.world) (C:=Ref.secured) Sample.head initial
     = (Ret (error_body (lit "Unauthorized"), 401),
        add_events initial [Logged WARNING (UnauthorizedRequest Sample.addr)]).
Proof. split; reflexivity. Qed.

(** Two texts joined: a line of the second on which [json.loads] raises
    ends the parse of the whole, after the warning of the first. *)
Example joined_with_long_integer :
  parse_ndjson (L:=Ref.lib) (lit "not json" ++ NEWLINE :: Sample.long_integer) initial
  = (Raise ValueError,
     add_events initial [Logged WARNING (ParseFailed (lit "not json"))]).
Proof. vm_compute. reflexivity. Qed.
